(** * Verification of the product-discovery assistant front end

    A shallow embedding of three TypeScript units of the repository and
    the properties the specification states about them:

    - [AppStateContext]  : [context/AppStateContext.tsx], the global
      reducer (cart, search history, session) and the provider's actions;
    - [UseSSEConnection] : [hooks/useSSEConnection.ts], the streaming hook
      (message list, reconnect counter, backoff timers);
    - [FunctionCallRenderer] : [components/FunctionCallRenderer.tsx], the
      dispatch from a tool name to the widget that shows its result.

    Numeric model.  A JavaScript [number] is modelled by [Z]: quantities
    are item counts, money is counted in minor units, delays in
    milliseconds.  On integers of magnitude below 2^53 the arithmetic of
    the source ([+], [*], [<=], [Math.pow(2, n)]) coincides with the one
    of [Z]; no statement below depends on rounding, [NaN] or infinities.

    Strings are [string] (sequences of bytes, the UTF-8 encoding of the
    text); [===] on strings is [String.eqb]. *)

From Stdlib Require Import List String Ascii ZArith Lia Bool DecimalString.
Import ListNotations.

Local Open Scope string_scope.
Local Open Scope Z_scope.
Local Open Scope list_scope.

(** ** Array helpers shared by the three units *)

Module JsArray.

Section Helpers.
Context {A B : Type}.

(** [arr.findIndex(p)]: index of the first element satisfying [p],
    [-1] when there is none. *)
Fixpoint findIndex_from (p : A -> bool) (l : list A) (i : Z) : Z :=
  match l with
  | [] => -1
  | x :: r => if p x then i else findIndex_from p r (i + 1)
  end.

Definition findIndex (p : A -> bool) (l : list A) : Z :=
  findIndex_from p l 0.

(** [arr.map((x, index) => f x index)]. *)
Fixpoint mapi_from (f : A -> Z -> B) (l : list A) (i : Z) : list B :=
  match l with
  | [] => []
  | x :: r => f x i :: mapi_from f r (i + 1)
  end.

Definition mapi (f : A -> Z -> B) (l : list A) : list B :=
  mapi_from f l 0.

(** [arr[arr.length - 1]], [undefined] on the empty array. *)
Definition last_elem (l : list A) : option A :=
  nth_error l (Nat.pred (List.length l)).
End Helpers.

(** [arr.slice(0, n)]. *)
Definition slice0 {A : Type} (n : nat) (l : list A) : list A := firstn n l.

End JsArray.

(** ** context/AppStateContext.tsx *)

Module AppStateContext.
Import JsArray.

Record Product := {
  p_id : string;
  p_name : string;
  p_description : string;
  p_price : Z;
  p_category : string;
  p_image_url : string;
  p_in_stock : bool;
  p_rating : option Z;
  p_reviews_count : option Z
}.

Record CartItem := {
  id : string;
  product_id : string;
  product_name : string;
  quantity : Z;
  unit_price : Z;
  total_price : Z
}.

Record AppState := {
  sessionId : option string;
  searchResults : list Product;
  searchHistory : list string;
  cartItems : list CartItem;
  cartTotal : Z;
  isLoading : bool;
  error : option string
}.

Inductive AppAction :=
| SET_SESSION_ID (payload : string)
| SET_SEARCH_RESULTS (payload : list Product)
| ADD_SEARCH_QUERY (payload : string)
| ADD_TO_CART (payload : CartItem)
| UPDATE_CART_ITEM (payload_id : string) (payload_quantity : Z)
| REMOVE_FROM_CART (payload : string)
| CLEAR_CART
| SET_LOADING (payload : bool)
| SET_ERROR (payload : option string).

Definition initialState : AppState := {|
  sessionId := None;
  searchResults := [];
  searchHistory := [];
  cartItems := [];
  cartTotal := 0;
  isLoading := false;
  error := None
|}.

(** The object spreads [{ ...state, field: v }] of the reducer. *)
Definition with_sessionId (s : AppState) (v : option string) : AppState :=
  {| sessionId := v; searchResults := searchResults s;
     searchHistory := searchHistory s; cartItems := cartItems s;
     cartTotal := cartTotal s; isLoading := isLoading s; error := error s |}.

Definition with_searchResults (s : AppState) (v : list Product) : AppState :=
  {| sessionId := sessionId s; searchResults := v;
     searchHistory := searchHistory s; cartItems := cartItems s;
     cartTotal := cartTotal s; isLoading := isLoading s; error := error s |}.

Definition with_searchHistory (s : AppState) (v : list string) : AppState :=
  {| sessionId := sessionId s; searchResults := searchResults s;
     searchHistory := v; cartItems := cartItems s;
     cartTotal := cartTotal s; isLoading := isLoading s; error := error s |}.

Definition with_cart (s : AppState) (items : list CartItem) (total : Z)
  : AppState :=
  {| sessionId := sessionId s; searchResults := searchResults s;
     searchHistory := searchHistory s; cartItems := items;
     cartTotal := total; isLoading := isLoading s; error := error s |}.

Definition with_isLoading (s : AppState) (v : bool) : AppState :=
  {| sessionId := sessionId s; searchResults := searchResults s;
     searchHistory := searchHistory s; cartItems := cartItems s;
     cartTotal := cartTotal s; isLoading := v; error := error s |}.

Definition with_error (s : AppState) (v : option string) : AppState :=
  {| sessionId := sessionId s; searchResults := searchResults s;
     searchHistory := searchHistory s; cartItems := cartItems s;
     cartTotal := cartTotal s; isLoading := isLoading s; error := v |}.

(** [items.reduce((sum, item) => sum + item.total_price, 0)]. *)
Definition sum_total_price (items : list CartItem) : Z :=
  fold_left (fun sum item => sum + total_price item) items 0.

(** The line built in the "Update existing item" branch of ADD_TO_CART. *)
Definition merge_line (item payload : CartItem) : CartItem :=
  {| id := id item; product_id := product_id item;
     product_name := product_name item;
     quantity := quantity item + quantity payload;
     unit_price := unit_price item;
     total_price := (quantity item + quantity payload) * unit_price item |}.

(** The line built by UPDATE_CART_ITEM for the matching id. *)
Definition requantify (item : CartItem) (q : Z) : CartItem :=
  {| id := id item; product_id := product_id item;
     product_name := product_name item;
     quantity := q;
     unit_price := unit_price item;
     total_price := q * unit_price item |}.

Definition appReducer (state : AppState) (action : AppAction) : AppState :=
  match action with
  | SET_SESSION_ID payload => with_sessionId state (Some payload)
  | SET_SEARCH_RESULTS payload => with_searchResults state payload
  | ADD_SEARCH_QUERY payload =>
      let newHistory :=
        payload :: filter (fun q => negb (q =? payload)%string)
                          (searchHistory state) in
      with_searchHistory state (slice0 10 newHistory)
  | ADD_TO_CART payload =>
      let existingItemIndex :=
        findIndex (fun item => (product_id item =? product_id payload)%string)
                  (cartItems state) in
      let updatedItems :=
        if existingItemIndex >=? 0 then
          mapi (fun item index =>
                  if index =? existingItemIndex
                  then merge_line item payload
                  else item)
               (cartItems state)
        else cartItems state ++ [payload] in
      let newTotal := sum_total_price updatedItems in
      with_cart state updatedItems newTotal
  | UPDATE_CART_ITEM pid pquantity =>
      let updatedCartItems :=
        map (fun item => if (id item =? pid)%string
                         then requantify item pquantity
                         else item)
            (cartItems state) in
      let updatedTotal := sum_total_price updatedCartItems in
      with_cart state updatedCartItems updatedTotal
  | REMOVE_FROM_CART payload =>
      let filteredItems :=
        filter (fun item => negb (id item =? payload)%string)
               (cartItems state) in
      let filteredTotal := sum_total_price filteredItems in
      with_cart state filteredItems filteredTotal
  | CLEAR_CART => with_cart state [] 0
  | SET_LOADING payload => with_isLoading state payload
  | SET_ERROR payload => with_error state payload
  end.

(** [useReducer]: the state after dispatching [actions] in order. *)
Definition dispatch_all (state : AppState) (actions : list AppAction)
  : AppState :=
  fold_left appReducer actions state.

(** The four cart mutations of the reducer. *)
Definition is_cart_mutation (a : AppAction) : bool :=
  match a with
  | ADD_TO_CART _ | UPDATE_CART_ITEM _ _ | REMOVE_FROM_CART _ | CLEAR_CART =>
      true
  | _ => false
  end.

(** *** The provider's cart actions

    [addToCart] receives the line without its [id] and generates
    [`cart_${Date.now()}_${random}`]; the generated string is an input
    of the model. *)
Record CartItemInput := {
  in_product_id : string;
  in_product_name : string;
  in_quantity : Z;
  in_unit_price : Z;
  in_total_price : Z
}.

Inductive ContextCall :=
| addToCart (generated_id : string) (item : CartItemInput)
| updateCartItem (cid : string) (q : Z)
| removeFromCart (cid : string)
| clearCart.

(** The action each call dispatches. *)
Definition dispatched (c : ContextCall) : AppAction :=
  match c with
  | addToCart gid item =>
      ADD_TO_CART {| id := gid;
                     product_id := in_product_id item;
                     product_name := in_product_name item;
                     quantity := in_quantity item;
                     unit_price := in_unit_price item;
                     total_price := in_total_price item |}
  | updateCartItem cid q =>
      if q <=? 0 then REMOVE_FROM_CART cid else UPDATE_CART_ITEM cid q
  | removeFromCart cid => REMOVE_FROM_CART cid
  | clearCart => CLEAR_CART
  end.

Definition call_all (state : AppState) (calls : list ContextCall) : AppState :=
  dispatch_all state (map dispatched calls).

(** *** Session bootstrap: [createSession] and the mount effect

    The provider runs against a browser environment: the value stored in
    [localStorage] under ['ai_assistant_session_id'], the reducer state,
    and the HTTP requests issued so far.  A [fetch] either rejects (network
    failure) or resolves to a response with a status, its [ok] flag and a
    body. *)
Inductive Request :=
| POST_sessions
| GET_context (session : string).

Inductive FetchOutcome (Body : Type) :=
| Rejected
| Resolved (status : Z) (ok : bool) (body : Body).
Arguments Rejected {Body}.
Arguments Resolved {Body} status ok body.

(** What the server answers.  The body of [POST /api/sessions] is the
    [session_id] of the parsed JSON, [None] when [response.json()] rejects. *)
Record Server := {
  post_sessions : FetchOutcome (option string);
  get_context : string -> FetchOutcome unit
}.

Record Env := {
  localStorage : option string;
  state : AppState;
  requests : list Request
}.

(** A computation of the provider: a state transformer over [Env]. *)
Definition Eff (A : Type) : Type := Env -> A * Env.

Definition ret {A : Type} (a : A) : Eff A := fun e => (a, e).

Definition bind {A B : Type} (m : Eff A) (k : A -> Eff B) : Eff B :=
  fun e => let (a, e') := m e in k a e'.

Notation "x <- m ;; k" := (bind m (fun x => k))
  (at level 61, m at next level, right associativity).
Notation "m ;; k" := (bind m (fun _ => k))
  (at level 61, right associativity).

Definition exec {A : Type} (m : Eff A) (e : Env) : Env := snd (m e).

Definition dispatch (a : AppAction) : Eff unit :=
  fun e => (tt, {| localStorage := localStorage e;
                   state := appReducer (state e) a;
                   requests := requests e |}).

Definition localStorage_getItem : Eff (option string) :=
  fun e => (localStorage e, e).

Definition localStorage_setItem (v : string) : Eff unit :=
  fun e => (tt, {| localStorage := Some v;
                   state := state e;
                   requests := requests e |}).

Definition localStorage_removeItem : Eff unit :=
  fun e => (tt, {| localStorage := None;
                   state := state e;
                   requests := requests e |}).

Definition fetch {Body : Type} (r : Request) (answer : FetchOutcome Body)
  : Eff (FetchOutcome Body) :=
  fun e => (answer, {| localStorage := localStorage e;
                       state := state e;
                       requests := requests e ++ [r] |}).

(** [createSession]: the try/catch/finally of the source; the [finally]
    dispatch runs on every path. *)
Definition createSession (srv : Server) : Eff unit :=
  dispatch (SET_LOADING true) ;;
  dispatch (SET_ERROR None) ;;
  response <- fetch POST_sessions (post_sessions srv) ;;
  match response with
  | Resolved _ false _ => ret tt
  | Resolved _ true (Some session_id) =>
      dispatch (SET_SESSION_ID session_id) ;;
      localStorage_setItem session_id
  | Resolved _ true None | Rejected =>
      dispatch (SET_ERROR (Some "Failed to create session"))
  end ;;
  dispatch (SET_LOADING false).

(** [!savedSessionId]: [null] and the empty string are falsy. *)
Definition no_saved_session (saved : option string) : bool :=
  match saved with
  | None => true
  | Some s => (s =? "")%string
  end.

(** The mount effect: read the saved id, then [validateOrCreate]. *)
Definition validateOrCreate (srv : Server) : Eff unit :=
  savedSessionId <- localStorage_getItem ;;
  match savedSessionId with
  | None => createSession srv
  | Some saved =>
      if no_saved_session savedSessionId then createSession srv
      else
        res <- fetch (GET_context saved) (get_context srv saved) ;;
        match res with
        | Resolved status ok _ =>
            if (status =? 404) || (status =? 410) then
              localStorage_removeItem ;; createSession srv
            else if negb ok then
              localStorage_removeItem ;; createSession srv
            else dispatch (SET_SESSION_ID saved)
        | Rejected =>
            localStorage_removeItem ;; createSession srv
        end
  end.

(** *** Vocabulary of the specification *)

(** The sum of the line totals of a cart. *)
Definition line_totals_sum (items : list CartItem) : Z :=
  fold_right Z.add 0 (map total_price items).

(** [cartTotal] agrees with the lines of the cart. *)
Definition cart_consistent (s : AppState) : Prop :=
  cartTotal s = line_totals_sum (cartItems s).

(** A subtotal plus a tax of [percent] per cent of it. *)
Definition with_tax (percent subtotal : Z) : Z :=
  subtotal + subtotal * percent / 100.

(** The cart-line invariant of the data model. *)
Definition line_ok (item : CartItem) : Prop :=
  0 < quantity item /\ total_price item = quantity item * unit_price item.

(** A call whose new line, if any, already satisfies the invariant. *)
Definition call_ok (c : ContextCall) : Prop :=
  match c with
  | addToCart _ item =>
      0 < in_quantity item /\
      in_total_price item = in_quantity item * in_unit_price item
  | _ => True
  end.

(** The lines of a cart that are for product [p]. *)
Definition lines_for (p : string) (items : list CartItem) : list CartItem :=
  filter (fun item => (product_id item =? p)%string) items.

(** The answers to the fetch of the saved session's context after which
    the saved id is dropped: status 404 or 410, any other non-OK response,
    or a network failure. *)
Definition rejects_saved_session (r : FetchOutcome unit) : Prop :=
  r = Rejected \/
  exists status ok, r = Resolved status ok tt /\
                    (status = 404 \/ status = 410 \/ ok = false).

(** The environment after the saved id was accepted. *)
Definition adopted (saved : string) (e : Env) : Env :=
  {| localStorage := localStorage e;
     state := appReducer (state e) (SET_SESSION_ID saved);
     requests := requests e ++ [GET_context saved] |}.

(** The environment in which [createSession] starts after the saved id
    was dropped. *)
Definition dropped (saved : string) (e : Env) : Env :=
  {| localStorage := None;
     state := state e;
     requests := requests e ++ [GET_context saved] |}.

(** The session id a successful [POST /api/sessions] delivers. *)
Definition fresh_session (srv : Server) : option string :=
  match post_sessions srv with
  | Resolved _ true (Some session_id) => Some session_id
  | _ => None
  end.

End AppStateContext.

(** ** JavaScript values received from the server

    Tool parameters and results arrive as parsed JSON.  [JUndefined] is the
    result of reading a property that is absent. *)

Module Json.

#[local] Set Warnings "-register-all".

Inductive JSON :=
| JUndefined
| JNull
| JBool (b : bool)
| JNum (n : Z)
| JStr (s : string)
| JArr (items : list JSON)
| JObj (fields : list (string * JSON)).

(** ToBoolean. *)
Definition truthy (v : JSON) : bool :=
  match v with
  | JUndefined | JNull => false
  | JBool b => b
  | JNum n => negb (n =? 0)
  | JStr s => negb (s =? "")%string
  | JArr _ | JObj _ => true
  end.

(** [a || b] and [a ?? b]. *)
Definition js_or (a b : JSON) : JSON := if truthy a then a else b.

Definition nullish (v : JSON) : bool :=
  match v with
  | JUndefined | JNull => true
  | _ => false
  end.

Definition js_coalesce (a b : JSON) : JSON := if nullish a then b else a.

(** Own property of an object built by [JSON.parse]: the last binding of a
    repeated key wins. *)
Fixpoint lookup_field (k : string) (fields : list (string * JSON))
  : option JSON :=
  match fields with
  | [] => None
  | (k', v) :: rest =>
      match lookup_field k rest with
      | Some w => Some w
      | None => if (k' =? k)%string then Some v else None
      end
  end.

(** [v.k] and [v?.k] for the property names the renderer reads ([data],
    [product], [validation], [error], [valid], [suggestions], [product_id],
    [cartItem], ...).  None of them is defined on strings, arrays, numbers,
    booleans or [Object.prototype], so only an object's own fields answer.
    The renderer never reads a property of [null] or [undefined] without
    [?.] or a truthiness guard, so those two cases answer [undefined] too. *)
Definition get (v : JSON) (k : string) : JSON :=
  match v with
  | JObj fields =>
      match lookup_field k fields with
      | Some w => w
      | None => JUndefined
      end
  | _ => JUndefined
  end.

(** [typeof v === 'string']. *)
Definition is_string (v : JSON) : bool :=
  match v with
  | JStr _ => true
  | _ => false
  end.

(** [a === b] against a boolean literal. *)
Definition strict_eq_bool (v : JSON) (b : bool) : bool :=
  match v with
  | JBool b' => Bool.eqb b' b
  | _ => false
  end.

(** The decimal spelling of an array index, as in a property key. *)
Definition index_key (i : nat) : string :=
  NilEmpty.string_of_uint (Nat.to_uint i).

Fixpoint indexed_from {A : Type} (f : A -> JSON) (l : list A) (i : nat)
  : list (string * JSON) :=
  match l with
  | [] => []
  | x :: r => (index_key i, f x) :: indexed_from f r (S i)
  end.

(** The own enumerable properties copied by an object spread [{ ...v }]:
    the fields of an object, the indexed elements of an array, the indexed
    characters of a string, nothing for the other values. *)
Definition spread (v : JSON) : list (string * JSON) :=
  match v with
  | JObj fields => fields
  | JArr items => indexed_from (fun x => x) items 0
  | JStr s =>
      indexed_from (fun c => JStr (String c EmptyString))
                   (list_ascii_of_string s) 0
  | _ => []
  end.

End Json.

(** ** hooks/useSSEConnection.ts *)

Module UseSSEConnection.
Import JsArray Json.

Inductive MessageType := T_user | T_assistant | T_function_call | T_error.

Record FunctionCallInfo := {
  fc_name : string;
  fc_parameters : JSON;
  fc_result : JSON
}.

Record Message := {
  id : string;
  type : MessageType;
  content : string;
  timestamp : Z;
  function_call : option FunctionCallInfo
}.

Inductive ConnectionStatus := connecting | connected | disconnected | errored.

(** The options of the hook; the callbacks are observed through the logs
    of [HookState]. *)
Record SSEConnectionOptions := {
  sessionId : string;
  maxReconnectAttempts : Z;
  baseReconnectDelay : Z
}.

(** [maxReconnectAttempts = 5, baseReconnectDelay = 1000]. *)
Definition default_options (session : string) : SSEConnectionOptions :=
  {| sessionId := session;
     maxReconnectAttempts := 5;
     baseReconnectDelay := 1000 |}.

(** The [useState] cells, the reconnect counter ref, the delays of the
    [setTimeout] timers armed by [scheduleReconnect] and not fired yet, and
    the observable effects: arguments passed to [onError] and [onMessage],
    number of [EventSource] objects created. *)
Record HookState := {
  messages : list Message;
  connectionStatus : ConnectionStatus;
  error : option string;
  isTyping : bool;
  reconnectAttempts : nat;
  pendingTimers : list Z;
  onErrorCalls : list string;
  onMessageCalls : list Message;
  eventSources : nat
}.

Definition initial : HookState :=
  {| messages := []; connectionStatus := disconnected; error := None;
     isTyping := false; reconnectAttempts := 0; pendingTimers := [];
     onErrorCalls := []; onMessageCalls := []; eventSources := 0 |}.

Definition setMessages (f : list Message -> list Message) (s : HookState)
  : HookState :=
  {| messages := f (messages s); connectionStatus := connectionStatus s;
     error := error s; isTyping := isTyping s;
     reconnectAttempts := reconnectAttempts s;
     pendingTimers := pendingTimers s; onErrorCalls := onErrorCalls s;
     onMessageCalls := onMessageCalls s; eventSources := eventSources s |}.

Definition setConnectionStatus (v : ConnectionStatus) (s : HookState)
  : HookState :=
  {| messages := messages s; connectionStatus := v;
     error := error s; isTyping := isTyping s;
     reconnectAttempts := reconnectAttempts s;
     pendingTimers := pendingTimers s; onErrorCalls := onErrorCalls s;
     onMessageCalls := onMessageCalls s; eventSources := eventSources s |}.

Definition setError (v : option string) (s : HookState) : HookState :=
  {| messages := messages s; connectionStatus := connectionStatus s;
     error := v; isTyping := isTyping s;
     reconnectAttempts := reconnectAttempts s;
     pendingTimers := pendingTimers s; onErrorCalls := onErrorCalls s;
     onMessageCalls := onMessageCalls s; eventSources := eventSources s |}.

Definition setIsTyping (v : bool) (s : HookState) : HookState :=
  {| messages := messages s; connectionStatus := connectionStatus s;
     error := error s; isTyping := v;
     reconnectAttempts := reconnectAttempts s;
     pendingTimers := pendingTimers s; onErrorCalls := onErrorCalls s;
     onMessageCalls := onMessageCalls s; eventSources := eventSources s |}.

Definition set_reconnectAttempts (v : nat) (s : HookState) : HookState :=
  {| messages := messages s; connectionStatus := connectionStatus s;
     error := error s; isTyping := isTyping s;
     reconnectAttempts := v;
     pendingTimers := pendingTimers s; onErrorCalls := onErrorCalls s;
     onMessageCalls := onMessageCalls s; eventSources := eventSources s |}.

Definition set_pendingTimers (v : list Z) (s : HookState) : HookState :=
  {| messages := messages s; connectionStatus := connectionStatus s;
     error := error s; isTyping := isTyping s;
     reconnectAttempts := reconnectAttempts s;
     pendingTimers := v; onErrorCalls := onErrorCalls s;
     onMessageCalls := onMessageCalls s; eventSources := eventSources s |}.

(** [onError?.(msg)] / [onErrorRef.current?.(msg)]. *)
Definition call_onError (msg : string) (s : HookState) : HookState :=
  {| messages := messages s; connectionStatus := connectionStatus s;
     error := error s; isTyping := isTyping s;
     reconnectAttempts := reconnectAttempts s;
     pendingTimers := pendingTimers s;
     onErrorCalls := onErrorCalls s ++ [msg];
     onMessageCalls := onMessageCalls s; eventSources := eventSources s |}.

Definition call_onMessage (m : Message) (s : HookState) : HookState :=
  {| messages := messages s; connectionStatus := connectionStatus s;
     error := error s; isTyping := isTyping s;
     reconnectAttempts := reconnectAttempts s;
     pendingTimers := pendingTimers s; onErrorCalls := onErrorCalls s;
     onMessageCalls := onMessageCalls s ++ [m];
     eventSources := eventSources s |}.

Definition new_EventSource (s : HookState) : HookState :=
  {| messages := messages s; connectionStatus := connectionStatus s;
     error := error s; isTyping := isTyping s;
     reconnectAttempts := reconnectAttempts s;
     pendingTimers := pendingTimers s; onErrorCalls := onErrorCalls s;
     onMessageCalls := onMessageCalls s;
     eventSources := S (eventSources s) |}.

(** [`${prefix}${Date.now()}`]. *)
Definition stamped (prefix : string) (now : Z) : string :=
  (prefix ++ NilZero.string_of_int (Z.to_int now))%string.

Definition addMessage (m : Message) (s : HookState) : HookState :=
  call_onMessage m (setMessages (fun prev => prev ++ [m]) s).

(** [connect]: nothing without a session id; otherwise the current
    [EventSource] is closed and a new one is created, on which the handlers
    below are installed.  The mount effect calls it once. *)
Definition connect (o : SSEConnectionOptions) (s : HookState) : HookState :=
  if (sessionId o =? "")%string then s
  else new_EventSource (setError None (setConnectionStatus connecting s)).

(** [eventSource.onopen]. *)
Definition onopen (s : HookState) : HookState :=
  set_reconnectAttempts 0 (setError None (setConnectionStatus connected s)).

(** [baseReconnectDelay * Math.pow(2, reconnectAttemptsRef.current)]. *)
Definition reconnect_delay (o : SSEConnectionOptions) (attempts : nat) : Z :=
  baseReconnectDelay o * 2 ^ Z.of_nat attempts.

(** [scheduleReconnect]: arms one timer. *)
Definition scheduleReconnect (o : SSEConnectionOptions) (s : HookState)
  : HookState :=
  set_pendingTimers
    (pendingTimers s ++ [reconnect_delay o (reconnectAttempts s)]) s.

(** The callback of that timer. *)
Definition reconnect_timer_callback (o : SSEConnectionOptions) (s : HookState)
  : HookState :=
  connect o (set_reconnectAttempts (S (reconnectAttempts s)) s).

Definition max_attempts_message : string := "Max reconnection attempts reached".

(** [eventSource.onerror]; the branch of the ['error'] listener for an
    event without data runs the same statements. *)
Definition onerror (o : SSEConnectionOptions) (s : HookState) : HookState :=
  let s1 := setConnectionStatus errored s in
  if Z.of_nat (reconnectAttempts s1) <? maxReconnectAttempts o
  then scheduleReconnect o s1
  else call_onError max_attempts_message
         (setError (Some max_attempts_message) s1).

(** The payload of an event received by the ['error'] listener: no [data]
    (a network-level error), [data] that [JSON.parse] rejects (the
    exception is caught and logged), or parsed data with its [error] field
    (the empty string when the field is missing). *)
Inductive ErrorPayload :=
| NoData
| Malformed
| ErrorData (data_error : string).

(** [handleErrorEvent], for an ['error'] event that carries data. *)
Definition handleErrorEvent (now : Z) (data_error : string) (s : HookState)
  : HookState :=
  let errorMessage :=
    {| id := stamped "error_" now; type := T_error;
       content := if (data_error =? "")%string then "An error occurred"
                  else data_error;
       timestamp := now; function_call := None |} in
  call_onError data_error (setError (Some data_error) (addMessage errorMessage s)).

(** The ['error'] listener registered with [addEventListener]. *)
Definition error_listener (o : SSEConnectionOptions) (now : Z)
  (payload : ErrorPayload) (s : HookState) : HookState :=
  match payload with
  | ErrorData data_error => handleErrorEvent now data_error s
  | Malformed => s
  | NoData => onerror o s
  end.

(** [reconnect], the manual trigger. *)
Definition reconnect (o : SSEConnectionOptions) (s : HookState) : HookState :=
  connect o (set_reconnectAttempts 0 s).

Record TextChunk := {
  chunk_content : string;
  chunk_partial : bool
}.

Definition assistant_message (now : Z) (text : string) : Message :=
  {| id := stamped "msg_" now; type := T_assistant; content := text;
     timestamp := now; function_call := None |}.

Definition is_assistant (m : Message) : bool :=
  match type m with
  | T_assistant => true
  | _ => false
  end.

(** [{ ...msg, content: msg.content + content }]. *)
Definition append_content (msg : Message) (text : string) : Message :=
  {| id := id msg; type := type msg;
     content := (content msg ++ text)%string;
     timestamp := timestamp msg; function_call := function_call msg |}.

(** The updater passed to [setMessages] for a partial chunk. *)
Definition extend_last (now : Z) (text : string) (prev : list Message)
  : list Message :=
  match last_elem prev with
  | Some lastMessage =>
      if is_assistant lastMessage then
        mapi (fun msg index =>
                if index =? Z.of_nat (List.length prev) - 1
                then append_content msg text
                else msg)
             prev
      else prev ++ [assistant_message now text]
  | None => prev ++ [assistant_message now text]
  end.

Definition handleTextChunk (now : Z) (data : TextChunk) (s : HookState)
  : HookState :=
  setIsTyping true
    (if chunk_partial data
     then setMessages (extend_last now (chunk_content data)) s
     else addMessage (assistant_message now (chunk_content data)) s).

Definition handleFunctionCall (now : Z) (data : FunctionCallInfo)
  (s : HookState) : HookState :=
  addMessage {| id := stamped "func_" now; type := T_function_call;
                content := ("Executing " ++ fc_name data)%string;
                timestamp := now; function_call := Some data |} s.

Definition handleCompletion (s : HookState) : HookState := setIsTyping false s.

Definition clearMessages (s : HookState) : HookState :=
  setMessages (fun _ => []) s.

(** What can happen to a mounted hook, one handler invocation at a time:
    the handlers of the current [EventSource], the firing of the [i]-th
    pending reconnect timer, and the calls of the returned API that touch
    the state modelled here.  ([stop], [disconnect] and [sendMessage]
    neither read nor write the attempt counter and are left out.) *)
Inductive Event :=
| EvOpen
| EvErrorListener (now : Z) (payload : ErrorPayload)
| EvOnError
| EvTimer (i : nat)
| EvReconnect
| EvTextChunk (now : Z) (data : TextChunk)
| EvFunctionCall (now : Z) (data : FunctionCallInfo)
| EvCompletion
| EvClearMessages.

Fixpoint remove_nth {A : Type} (i : nat) (l : list A) : list A :=
  match l, i with
  | [], _ => []
  | _ :: r, O => r
  | x :: r, S j => x :: remove_nth j r
  end.

Definition step (o : SSEConnectionOptions) (s : HookState) (e : Event)
  : HookState :=
  match e with
  | EvOpen => onopen s
  | EvErrorListener now data => error_listener o now data s
  | EvOnError => onerror o s
  | EvTimer i =>
      match nth_error (pendingTimers s) i with
      | Some _ =>
          reconnect_timer_callback o
            (set_pendingTimers (remove_nth i (pendingTimers s)) s)
      | None => s
      end
  | EvReconnect => reconnect o s
  | EvTextChunk now data => handleTextChunk now data s
  | EvFunctionCall now data => handleFunctionCall now data s
  | EvCompletion => handleCompletion s
  | EvClearMessages => clearMessages s
  end.

Definition run (o : SSEConnectionOptions) (s : HookState) (tr : list Event)
  : HookState :=
  fold_left (step o) tr s.

(** Whether [e] is the firing of a reconnect timer that is pending in [s]:
    a reconnection attempt. *)
Definition is_attempt (s : HookState) (e : Event) : bool :=
  match e with
  | EvTimer i =>
      match nth_error (pendingTimers s) i with
      | Some _ => true
      | None => false
      end
  | _ => false
  end.

(** Number of reconnection attempts made along [tr] since the last event
    satisfying [resets], starting from [n] in state [s]. *)
Fixpoint attempts_since (resets : Event -> bool) (o : SSEConnectionOptions)
  (s : HookState) (n : nat) (tr : list Event) : nat :=
  match tr with
  | [] => n
  | e :: tr' =>
      attempts_since resets o (step o s e)
        (if resets e then O else if is_attempt s e then S n else n) tr'
  end.

Definition is_open (e : Event) : bool :=
  match e with
  | EvOpen => true
  | _ => false
  end.

Definition is_open_or_reconnect (e : Event) : bool :=
  match e with
  | EvOpen | EvReconnect => true
  | _ => false
  end.

(** Attempts made since the last successful open. *)
Definition attempts_since_open (o : SSEConnectionOptions) (tr : list Event)
  : nat :=
  attempts_since is_open o initial 0 tr.

(** Attempts made since the last successful open or manual [reconnect()]. *)
Definition attempts_since_reset (o : SSEConnectionOptions) (tr : list Event)
  : nat :=
  attempts_since is_open_or_reconnect o initial 0 tr.

(** *** Vocabulary of the specification *)

(** The backoff rule, with the number of attempts already made given by
    [count]: when the connection fails after the events [tr], the failure
    handler arms one timer of delay [baseReconnectDelay * 2^n] and surfaces
    nothing as long as [n] is below [maxReconnectAttempts]; from then on it
    arms no timer, sets the error and calls [onError] with it. *)
Definition backoff_holds (count : SSEConnectionOptions -> list Event -> nat)
  (o : SSEConnectionOptions) (tr : list Event) : Prop :=
  let s := run o initial tr in
  let n := count o tr in
  let s' := onerror o s in
  if Z.of_nat n <? maxReconnectAttempts o
  then pendingTimers s' = pendingTimers s ++ [baseReconnectDelay o * 2 ^ Z.of_nat n]
       /\ error s' = error s
       /\ onErrorCalls s' = onErrorCalls s
  else pendingTimers s' = pendingTimers s
       /\ error s' = Some max_attempts_message
       /\ onErrorCalls s' = onErrorCalls s ++ [max_attempts_message].

(** One network-level ['error'] event reaches both handlers registered on
    the [EventSource], in registration order: the listener added with
    [addEventListener], then [onerror]. *)
Definition dispatch_network_error (o : SSEConnectionOptions) (now : Z)
  (s : HookState) : HookState :=
  onerror o (error_listener o now NoData s).

(** A state whose message list is [l]. *)
Definition with_messages (l : list Message) (s : HookState) : HookState :=
  setMessages (fun _ => l) s.

Definition partial_chunk (text : string) : TextChunk :=
  {| chunk_content := text; chunk_partial := true |}.

Definition final_chunk (text : string) : TextChunk :=
  {| chunk_content := text; chunk_partial := false |}.

End UseSSEConnection.

(** ** components/FunctionCallRenderer.tsx *)

Module FunctionCallRenderer.
Import Json.

Record FunctionCall := {
  name : string;
  parameters : JSON;
  result : JSON
}.

(** [String.prototype.trim] removes the WhiteSpace and LineTerminator
    characters of ECMAScript from both ends of a string.  In a string of
    bytes (UTF-8) these characters are
    - one byte: U+0009 .. U+000D and U+0020;
    - two bytes: U+00A0 (C2 A0);
    - three bytes: U+1680 (E1 9A 80), U+2000 .. U+200A (E2 80 80 .. 8A),
      U+2028, U+2029 and U+202F (E2 80 A8, A9, AF), U+205F (E2 81 9F),
      U+3000 (E3 80 80) and U+FEFF (EF BB BF).
    A byte A0 that belongs to no UTF-8 sequence (no lead byte stands at
    the right distance before it) is the no-break space of a string
    written one byte per character, and is removed as well. *)
Definition is_space (c : ascii) : bool :=
  let n := nat_of_ascii c in
  ((9 <=? n) && (n <=? 13) || (n =? 32))%nat.

Definition is_nbsp_byte (c : ascii) : bool := (nat_of_ascii c =? 160)%nat.

(** The lead bytes of the sequences of two, three and four bytes, and the
    bytes that continue a sequence. *)
Definition is_lead2 (c : ascii) : bool :=
  let n := nat_of_ascii c in ((194 <=? n) && (n <=? 223))%nat.

Definition is_lead3 (c : ascii) : bool :=
  let n := nat_of_ascii c in ((224 <=? n) && (n <=? 239))%nat.

Definition is_lead4 (c : ascii) : bool :=
  let n := nat_of_ascii c in ((240 <=? n) && (n <=? 244))%nat.

Definition is_continuation (c : ascii) : bool :=
  let n := nat_of_ascii c in ((128 <=? n) && (n <=? 191))%nat.

(** Whether the bytes [before] a continuation byte, read backwards, put
    that byte inside a sequence. *)
Definition in_sequence (before : list ascii) : bool :=
  match before with
  | c2 :: r2 =>
      is_lead2 c2 ||
      is_continuation c2 &&
      match r2 with
      | c3 :: r3 =>
          is_lead3 c3 ||
          is_continuation c3 &&
          match r3 with
          | c4 :: _ => is_lead4 c4
          | [] => false
          end
      | [] => false
      end
  | [] => false
  end.

Definition is_space2 (c1 c2 : ascii) : bool :=
  ((nat_of_ascii c1 =? 194) && (nat_of_ascii c2 =? 160))%nat.

Definition is_space3 (c1 c2 c3 : ascii) : bool :=
  let n1 := nat_of_ascii c1 in
  let n2 := nat_of_ascii c2 in
  let n3 := nat_of_ascii c3 in
  ((n1 =? 225) && (n2 =? 154) && (n3 =? 128)
   || (n1 =? 226) && (n2 =? 128) &&
      ((128 <=? n3) && (n3 <=? 138) || (n3 =? 168) || (n3 =? 169) ||
       (n3 =? 175))
   || (n1 =? 226) && (n2 =? 129) && (n3 =? 159)
   || (n1 =? 227) && (n2 =? 128) && (n3 =? 128)
   || (n1 =? 239) && (n2 =? 187) && (n3 =? 191))%nat.

(** The string without the white space it starts with. *)
Fixpoint trim_start (l : list ascii) : list ascii :=
  match l with
  | c1 :: r1 =>
      if is_space c1 || is_nbsp_byte c1 then trim_start r1
      else
        match r1 with
        | c2 :: r2 =>
            if is_space2 c1 c2 then trim_start r2
            else
              match r2 with
              | c3 :: r3 => if is_space3 c1 c2 c3 then trim_start r3 else l
              | [] => l
              end
        | [] => l
        end
  | [] => []
  end.

(** The same from the other end: [l] is the string read backwards, so
    [c1] is its last byte and [c2] the byte before it. *)
Fixpoint trim_end_rev (l : list ascii) : list ascii :=
  match l with
  | c1 :: r1 =>
      if is_space c1 || is_nbsp_byte c1 && negb (in_sequence r1)
      then trim_end_rev r1
      else
        match r1 with
        | c2 :: r2 =>
            if is_space2 c2 c1 then trim_end_rev r2
            else
              match r2 with
              | c3 :: r3 => if is_space3 c3 c2 c1 then trim_end_rev r3 else l
              | [] => l
              end
        | [] => l
        end
  | [] => []
  end.

Definition trim_end (l : list ascii) : list ascii :=
  rev (trim_end_rev (rev l)).

Definition trim (s : string) : string :=
  string_of_list_ascii (trim_end (trim_start (list_ascii_of_string s))).

(** [s.includes(sub)]. *)
Fixpoint includes (sub s : string) : bool :=
  if prefix sub s then true
  else match s with
       | EmptyString => false
       | String _ rest => includes sub rest
       end.

Inductive Component :=
| SearchResults
| ProductCard
| CartNotification
| RecommendationGrid
| CartView.

(** The object literal [FunctionComponents]: its own properties. *)
Definition FunctionComponents : list (string * Component) :=
  [ ("search_products", SearchResults);
    ("show_product_details", ProductCard);
    ("add_to_cart", CartNotification);
    ("get_recommendations", RecommendationGrid);
    ("get_cart", CartView);
    ("remove_from_cart", CartView) ].

Fixpoint own_property (k : string) (table : list (string * Component))
  : option Component :=
  match table with
  | [] => None
  | (k', c) :: rest => if (k' =? k)%string then Some c else own_property k rest
  end.

(** [FunctionComponents] is a plain object, so a property read that finds
    no own property continues in [Object.prototype], whose members are all
    truthy values (functions, and the prototype object itself for
    [__proto__]). *)
Definition Object_prototype : list string :=
  [ "constructor"; "hasOwnProperty"; "isPrototypeOf"; "propertyIsEnumerable";
    "toLocaleString"; "toString"; "valueOf"; "__proto__";
    "__defineGetter__"; "__defineSetter__";
    "__lookupGetter__"; "__lookupSetter__" ].

(** What a property read on [FunctionComponents] evaluates to. *)
Inductive Resolved :=
| Own (c : Component)
| Inherited (member : string).

(** [FunctionComponents[k]]; [None] is [undefined]. *)
Definition FunctionComponents_get (k : string) : option Resolved :=
  match own_property k FunctionComponents with
  | Some c => Some (Own c)
  | None =>
      if existsb (fun m => (m =? k)%string) Object_prototype
      then Some (Inherited k)
      else None
  end.

(** What the renderer returns.  [UnknownFunctionCall] is the gray box
    titled "Unknown Function Call", which prints [name] and
    [JSON.stringify(parameters, null, 2)]; [ErrorBannerElement] is
    [<ErrorBanner title message suggestions />]; [ComponentElement] is
    [<Component {...mappedProps} ... />]: the props are listed in the order
    they are written, a later binding of a key overriding an earlier one;
    the three interaction callbacks are functions of [name] and are not
    part of the data.  No statement of the [try] block can throw on these
    values, so the "Render Error" box of the [catch] is never returned. *)
Inductive Element :=
| UnknownFunctionCall (shown_name : string) (shown_parameters : JSON)
| ErrorBannerElement (title : string) (message : JSON) (suggestions : JSON)
| ComponentElement (component : Resolved) (mappedProps : list (string * JSON)).

Definition default_banner_title : string := "Validation Error".

Definition default_validation_message : string :=
  "Product not found or not in recent searches.".

(** One [<li>] of the banner: [typeof s === 'string' ? s :
    (s?.product_id || JSON.stringify(s))]. *)
Inductive SuggestionText :=
| Literal (s : string)
| ProductId (v : JSON)
| Stringified (v : JSON).

Definition suggestion_text (s : JSON) : SuggestionText :=
  match s with
  | JStr str => Literal str
  | _ => if truthy (get s "product_id") then ProductId (get s "product_id")
         else Stringified s
  end.

(** The "Did you mean" list of [ErrorBanner]: present only for a non-empty
    array, and then made of [suggestions.slice(0, 5)]. *)
Definition ErrorBanner_items (suggestions : JSON) : list SuggestionText :=
  match suggestions with
  | JArr items => map suggestion_text (JsArray.slice0 5 items)
  | _ => []
  end.

(** [result?.data || result || {}]. *)
Definition normalized_result (result : JSON) : JSON :=
  js_or (js_or (get result "data") result) (JObj []).

Definition FunctionCallRenderer (functionCall : FunctionCall) : Element :=
  let normalizedName := trim (name functionCall) in
  let Component :=
    match FunctionComponents_get normalizedName with
    | Some c => Some c
    | None => if includes "cart" normalizedName then Some (Own CartView)
              else None
    end in
  match Component with
  | None => UnknownFunctionCall (name functionCall) (parameters functionCall)
  | Some Component =>
      let raw := normalized_result (result functionCall) in
      let mappedProps := spread (parameters functionCall) ++ spread raw in
      let mappedProps :=
        if (normalizedName =? "add_to_cart")%string then
          mappedProps ++
          [ ("cartItem", js_coalesce (get raw "cartItem") (get raw "cart_item"));
            ("cart_summary",
             js_coalesce (get raw "cart_summary") (get raw "cartSummary")) ]
        else mappedProps in
      let validation := get raw "validation" in
      let hasValidationError :=
        (normalizedName =? "show_product_details")%string &&
        (negb (truthy (get raw "product")) ||
         (truthy validation && strict_eq_bool (get validation "valid") false)) in
      let genericError :=
        if is_string (get raw "error") then get raw "error" else JNull in
      if truthy genericError then
        ErrorBannerElement default_banner_title genericError JUndefined
      else if hasValidationError then
        ErrorBannerElement "Invalid Product ID"
          (js_or (get validation "error") (JStr default_validation_message))
          (get validation "suggestions")
      else ComponentElement Component mappedProps
  end.

(** *** Vocabulary of the specification *)

(** The banner built from the [validation] field of a result. *)
Definition validation_banner (raw : JSON) : Element :=
  ErrorBannerElement "Invalid Product ID"
    (js_or (get (get raw "validation") "error")
           (JStr default_validation_message))
    (get (get raw "validation") "suggestions").

(** The banner built from a string [error] field. *)
Definition generic_banner (raw : JSON) : Element :=
  ErrorBannerElement default_banner_title (get raw "error") JUndefined.

(** The result carries a non-empty string [error]. *)
Definition has_generic_error (raw : JSON) : bool :=
  is_string (get raw "error") && truthy (get raw "error").

Definition is_product_card (e : Element) : bool :=
  match e with
  | ComponentElement (Own ProductCard) _ => true
  | _ => false
  end.

(** The suggestions an element displays. *)
Definition displayed_suggestions (e : Element) : list SuggestionText :=
  match e with
  | ErrorBannerElement _ _ suggestions => ErrorBanner_items suggestions
  | _ => []
  end.

(** The premise of the validation banner: no [product] (the field is
    absent, or holds a falsy value such as [null]), or a [validation] whose
    [valid] is [false]. *)
Definition validation_failed (raw : JSON) : Prop :=
  truthy (get raw "product") = false \/
  get (get raw "validation") "valid" = JBool false.

(** The name is one of the six keys of [FunctionComponents]. *)
Definition is_key (k : string) : bool :=
  match own_property k FunctionComponents with
  | Some _ => true
  | None => false
  end.

Definition is_inherited (k : string) : bool :=
  existsb (fun m => (m =? k)%string) Object_prototype.

End FunctionCallRenderer.

(** ** The rest of the hook's API: [sendMessage] *)

Module UseSSEConnectionApi.
Import Json UseSSEConnection.

(** How the POST of [sendMessage] settles: the promise resolves to a
    response ([ok] flag, and whether [response.json()] succeeds), or it
    rejects, with an [AbortError] when the request was aborted. *)
Inductive SendOutcome :=
| SendResolved (ok : bool) (json_parses : bool)
| SendRejected (abort_error : bool).

(** The outcomes that reach the [catch] with an error that is not an
    [AbortError]. *)
Definition send_failed (r : SendOutcome) : bool :=
  match r with
  | SendResolved ok json_parses => negb ok || negb json_parses
  | SendRejected abort_error => negb abort_error
  end.

Definition user_message (now : Z) (text : string) : Message :=
  {| id := stamped "user_" now; type := T_user; content := text;
     timestamp := now; function_call := None |}.

Definition send_failure_text : string := "Message send failed, retry if needed".

Definition send_error_message (now : Z) : Message :=
  {| id := stamped "send_error_" now; type := T_error;
     content := send_failure_text; timestamp := now; function_call := None |}.

(** [sendMessage] up to its [await fetch]: the user message is added
    immediately. *)
Definition sendMessage_begin (now : Z) (message : string) (s : HookState)
  : HookState :=
  addMessage (user_message now message) s.

(** [sendMessage] once the request has settled, at time [now]. *)
Definition sendMessage_settle (now : Z) (r : SendOutcome) (s : HookState)
  : HookState :=
  if send_failed r then addMessage (send_error_message now) s else s.

(** A [sendMessage] during which no other handler runs. *)
Definition sendMessage (now now' : Z) (message : string) (r : SendOutcome)
  (s : HookState) : HookState :=
  sendMessage_settle now' r (sendMessage_begin now message s).

(** The events that concern the connection only. *)
Definition is_connection_event (e : Event) : bool :=
  match e with
  | EvOpen | EvOnError | EvTimer _ | EvReconnect => true
  | EvErrorListener _ NoData | EvErrorListener _ Malformed => true
  | _ => false
  end.

Definition is_clear (e : Event) : bool :=
  match e with
  | EvClearMessages => true
  | _ => false
  end.

(** The text chunks of one streamed answer, each with its arrival time. *)
Definition partial_events (chunks : list (Z * string)) : list Event :=
  map (fun c => EvTextChunk (fst c) (partial_chunk (snd c))) chunks.

(** Their texts, one after the other. *)
Definition joined (chunks : list (Z * string)) : string :=
  fold_right (fun c rest => (snd c ++ rest)%string) "" chunks.

Definition is_reconnect (e : Event) : bool :=
  match e with
  | EvReconnect => true
  | _ => false
  end.

(** Number of calls of [connect] along [tr] from state [s]: one for each
    reconnect timer that fires and one for each manual [reconnect()]. *)
Fixpoint connect_calls (o : SSEConnectionOptions) (s : HookState)
  (tr : list Event) : nat :=
  match tr with
  | [] => O
  | e :: tr' =>
      ((if is_attempt s e || is_reconnect e then 1 else 0)
       + connect_calls o (step o s e) tr')%nat
  end.

(** The last message, if any, is not an assistant message. *)
Definition last_is_not_assistant (l : list Message) : Prop :=
  match JsArray.last_elem l with
  | Some m => is_assistant m = false
  | None => True
  end.

(** The delays the backoff rule can produce with the options [o]. *)
Definition allowed_delay (o : SSEConnectionOptions) (d : Z) : Prop :=
  exists n : nat,
    Z.of_nat n < maxReconnectAttempts o /\ d = reconnect_delay o n.

End UseSSEConnectionApi.

(** ** components/MessageList.tsx *)

Module MessageList.
Import Json UseSSEConnection FunctionCallRenderer.

(** [String.prototype.toLowerCase] on the letters of the ASCII range. *)
Definition lower (c : ascii) : ascii :=
  let n := nat_of_ascii c in
  if ((65 <=? n) && (n <=? 90))%nat then ascii_of_nat (n + 32) else c.

Fixpoint toLowerCase (s : string) : string :=
  match s with
  | EmptyString => EmptyString
  | String c rest => String (lower c) (toLowerCase rest)
  end.

Definition is_error (m : Message) : bool :=
  match type m with
  | T_error => true
  | _ => false
  end.

(** The predicate negated by the filter of [visibleMessages]. *)
Definition is_send_failure (m : Message) : bool :=
  is_error m && includes "message send failed" (toLowerCase (content m)).

Definition visibleMessages (messages : list Message) : list Message :=
  filter (fun m => negb (is_send_failure m)) messages.

Definition bubbleStyles (t : MessageType) : string :=
  match t with
  | T_user => "bg-blue-600 text-white self-end"
  | T_error => "error-message"
  | T_function_call => ""
  | T_assistant => "bg-gray-100"
  end.

Definition avatar (t : MessageType) : string :=
  match t with
  | T_user => "U"
  | T_error => "!"
  | _ => "AI"
  end.

(** The call record handed to [FunctionCallRenderer]. *)
Definition to_FunctionCall (f : FunctionCallInfo) : FunctionCall :=
  {| name := fc_name f; parameters := fc_parameters f;
     result := fc_result f |}.

(** The "Function: name" line, hidden for the four cart functions. *)
Definition function_header (f : FunctionCallInfo) : option string :=
  let fname := trim (fc_name f) in
  let hideBanner :=
    (fname =? "get_cart")%string || (fname =? "remove_from_cart")%string ||
    (fname =? "update_cart")%string || (fname =? "add_to_cart")%string in
  if hideBanner then None else Some fname.

(** The content of a bubble: the rendered function call under its header,
    or the text of the message. *)
Inductive BubbleBody :=
| FunctionBody (header : option string) (element : Element)
| TextBody (text : string).

Record Bubble := {
  key : string;
  avatar_text : string;
  className : string;
  body : BubbleBody;
  time : Z
}.

Definition is_function_call (t : MessageType) : bool :=
  match t with
  | T_function_call => true
  | _ => false
  end.

Definition render_message (message : Message) : Bubble :=
  {| key := id message;
     avatar_text := avatar (type message);
     className :=
       ((if is_function_call (type message) then "" else "rounded-lg px-3 py-2")
        ++ " " ++ bubbleStyles (type message))%string;
     body :=
       match is_function_call (type message), function_call message with
       | true, Some f =>
           FunctionBody (function_header f)
                        (FunctionCallRenderer (to_FunctionCall f))
       | _, _ => TextBody (content message)
       end;
     time := timestamp message |}.

Definition MessageList (messages : list Message) : list Bubble :=
  map render_message (visibleMessages messages).

End MessageList.

(** ** Interactions: from a widget's button to the chat

    [FunctionCallRenderer] hands [handleInteraction] to its widgets,
    [MessageList] passes the call on, and [ChatInterface] turns it into a
    chat message or a REST call followed by a chat message. *)

Module Interaction.
Import Json FunctionCallRenderer.

(** [String(v)], as a template literal converts its holes.  A number is an
    integer here and prints in decimal. *)
Fixpoint js_to_string (v : JSON) : string :=
  match v with
  | JUndefined => "undefined"
  | JNull => "null"
  | JBool true => "true"
  | JBool false => "false"
  | JNum n => NilZero.string_of_int (Z.to_int n)
  | JStr s => s
  | JArr items =>
      let element x :=
        match x with
        | JUndefined | JNull => ""
        | _ => js_to_string x
        end in
      (fix join (l : list JSON) : string :=
         match l with
         | [] => ""
         | [x] => element x
         | x :: r => (element x ++ "," ++ join r)%string
         end) items
  | JObj _ => "[object Object]"
  end.

(** [typeof v === 'number']. *)
Definition is_number (v : JSON) : bool :=
  match v with
  | JNum _ => true
  | _ => false
  end.

(** [handleInteraction] of the renderer: the action and the data that
    reach [onInteraction], [{ function: name, ...data }]. *)
Definition handleInteraction (fname : string) (action : string) (data : JSON)
  : string * JSON :=
  (action, JObj (("function", JStr fname) :: spread data)).

(** The [onProductSelect] and [onAddToCart] props of the widgets. *)
Definition onProductSelect (fname : string) (pid : JSON) : string * JSON :=
  handleInteraction fname "select_product" (JObj [("product_id", pid)]).

Definition onAddToCart (fname : string) (pid quantity : JSON)
  : string * JSON :=
  handleInteraction fname "add_to_cart"
    (JObj [("product_id", pid); ("quantity", quantity)]).

(** The buttons of [CartView] for one line. *)
Definition cart_change_quantity (fname : string) (pid : JSON) (delta : Z)
  : string * JSON :=
  handleInteraction fname "update_cart"
    (JObj [("product_id", pid); ("delta", JNum delta)]).

Definition cart_remove (fname : string) (item_id pid : JSON)
  : string * JSON :=
  handleInteraction fname "remove_from_cart"
    (JObj [("item_id", item_id); ("product_id", pid)]).

(** What [ChatInterface] does with an interaction: [sendMessage(text)], or
    a POST to a function endpoint whose [finally] sends a chat message. *)
Inductive Reaction :=
| SendChat (text : string)
| PostThenSend (url : string) (payload : JSON) (text : string).

Definition optional_field (k : string) (v : JSON) : list (string * JSON) :=
  if truthy v then [(k, v)] else [].

(** The [onInteraction] handler [ChatInterface] gives to [MessageList]. *)
Definition onInteraction (sessionId : string) (action : string) (data : JSON)
  : option Reaction :=
  if (action =? "select_product")%string && truthy (get data "product_id")
  then Some (SendChat ("details " ++ js_to_string (get data "product_id")))
  else if (action =? "add_to_cart")%string && truthy (get data "product_id")
  then
    let qty := js_coalesce (get data "quantity") (JNum 1) in
    Some (SendChat ("add to cart " ++ js_to_string (get data "product_id")
                    ++ " " ++ js_to_string qty))
  else if (action =? "remove_from_cart")%string
  then
    let payload :=
      [("session_id", JStr sessionId)]
      ++ optional_field "product_id" (get data "product_id")
      ++ optional_field "item_id" (get data "item_id") in
    Some (PostThenSend "/api/functions/remove_from_cart" (JObj payload)
                       "show cart")
  else if (action =? "update_cart")%string &&
          truthy (get data "product_id") && is_number (get data "delta")
  then
    Some (PostThenSend "/api/functions/update_cart"
            (JObj [("session_id", JStr sessionId);
                   ("product_id", get data "product_id");
                   ("delta", get data "delta")])
            "show cart")
  else None.

(** The four actions [onInteraction] knows. *)
Definition is_known_action (action : string) : bool :=
  (action =? "select_product")%string || (action =? "add_to_cart")%string ||
  (action =? "remove_from_cart")%string || (action =? "update_cart")%string.

(** A widget's call, as it arrives in [ChatInterface]. *)
Definition react (sessionId : string) (interaction : string * JSON)
  : option Reaction :=
  onInteraction sessionId (fst interaction) (snd interaction).

(** *** The input field *)

(** [handleSend] of [MessageInput]: the argument of [onSend], if any. *)
Definition handleSend (value : string) (disabled : bool) : option string :=
  if negb (trim value =? "")%string && negb disabled then Some value
  else None.

(** [handleKeyPress]: whether the default is prevented, and the argument
    of [onSend], if any. *)
Definition handleKeyPress (key : string) (shiftKey : bool) (value : string)
  (disabled : bool) : bool * option string :=
  if (key =? "Enter")%string && negb shiftKey
  then (true, handleSend value disabled)
  else (false, None).

(** The truthiness of [sessionId], a string or [null]. *)
Definition has_session (sessionId : option string) : bool :=
  match sessionId with
  | Some s => negb (s =? "")%string
  | None => false
  end.

(** [handleSendMessage] of [ChatInterface]: the argument of the hook's
    [sendMessage], if it is called.  (The hook's [sendMessage] catches its
    own failures, so the retry of the source is not reached.) *)
Definition handleSendMessage (sessionId : option string) (message : string)
  : option string :=
  if negb (trim message =? "")%string && has_session sessionId
  then Some (trim message)
  else None.

(** The [disabled] prop [ChatInterface] passes to [MessageInput]. *)
Definition input_disabled (status : UseSSEConnection.ConnectionStatus) : bool :=
  match status with
  | UseSSEConnection.connected => false
  | _ => true
  end.

(** From a click on "Send" to the hook. *)
Definition submitted (sessionId : option string)
  (status : UseSSEConnection.ConnectionStatus) (value : string)
  : option string :=
  match handleSend value (input_disabled status) with
  | Some message => handleSendMessage sessionId message
  | None => None
  end.

End Interaction.

(** ** Vocabulary for the renderer's remaining behaviour *)

Module FunctionCallRendererApi.
Import Json FunctionCallRenderer.

(** The value of [Component] in the renderer: the table entry (own or
    inherited), else [CartView] for a name that contains "cart". *)
Definition selected (normalizedName : string) : option Resolved :=
  match FunctionComponents_get normalizedName with
  | Some c => Some c
  | None => if includes "cart" normalizedName then Some (Own CartView)
            else None
  end.

(** The props object [mappedProps] built in the [try] block. *)
Definition mapped_props (fc : FunctionCall) : list (string * JSON) :=
  let raw := normalized_result (result fc) in
  let props := spread (parameters fc) ++ spread raw in
  if (trim (name fc) =? "add_to_cart")%string then
    props ++
    [ ("cartItem", js_coalesce (get raw "cartItem") (get raw "cart_item"));
      ("cart_summary",
       js_coalesce (get raw "cart_summary") (get raw "cartSummary")) ]
  else props.

(** The test of [hasValidationError] on the result. *)
Definition validation_fails (raw : JSON) : bool :=
  negb (truthy (get raw "product")) ||
  (truthy (get raw "validation") &&
   strict_eq_bool (get (get raw "validation") "valid") false).





(** A string made of the white space of the ASCII range only. *)
Definition is_blank (s : string) : bool :=
  forallb is_space (list_ascii_of_string s).

(** One step of [trim_start]: what follows the white-space character [l]
    starts with, if it starts with one. *)
Definition skip_space (l : list ascii) : option (list ascii) :=
  match l with
  | c1 :: r1 =>
      if is_space c1 || is_nbsp_byte c1 then Some r1
      else
        match r1 with
        | c2 :: r2 =>
            if is_space2 c1 c2 then Some r2
            else
              match r2 with
              | c3 :: r3 => if is_space3 c1 c2 c3 then Some r3 else None
              | [] => None
              end
        | [] => None
        end
  | [] => None
  end.

(** One step of [trim_end_rev]. *)
Definition skip_space_rev (l : list ascii) : option (list ascii) :=
  match l with
  | c1 :: r1 =>
      if is_space c1 || is_nbsp_byte c1 && negb (in_sequence r1) then Some r1
      else
        match r1 with
        | c2 :: r2 =>
            if is_space2 c2 c1 then Some r2
            else
              match r2 with
              | c3 :: r3 => if is_space3 c3 c2 c1 then Some r3 else None
              | [] => None
              end
        | [] => None
        end
  | [] => None
  end.

(** U+00A0, U+FEFF and U+2028 in UTF-8. *)
Definition no_break_space : string := String "194" (String "160" "").

Definition byte_order_mark : string :=
  String "239" (String "187" (String "191" "")).

Definition line_separator : string :=
  String "226" (String "128" (String "168" "")).

End FunctionCallRendererApi.

(** ** The two mount effects that set up the session

    [AppStateProvider] validates the stored id when it mounts
    (AppStateContext.tsx l.280-313), and [ChatInterface], rendered inside
    it, calls [createSession] when it mounts with a null [sessionId]
    (ChatInterface.tsx l.24-29).  An [await fetch(...)] suspends its
    caller: what precedes it runs with the effect, what follows it runs
    when the response arrives, and two pending responses arrive in either
    order. *)

Module Mount.
Import AppStateContext.

(** [fetch(...)] up to its [await]: the request leaves. *)
Definition request (r : Request) : Eff unit :=
  fun e => (tt, {| localStorage := localStorage e;
                   state := state e;
                   requests := requests e ++ [r] |}).

(** [createSession] up to the [await] of the POST. *)
Definition createSession_begin : Eff unit :=
  dispatch (SET_LOADING true) ;;
  dispatch (SET_ERROR None) ;;
  request POST_sessions.

(** [createSession] from the response on, [finally] included. *)
Definition createSession_settle (response : FetchOutcome (option string))
  : Eff unit :=
  match response with
  | Resolved _ false _ => ret tt
  | Resolved _ true (Some session_id) =>
      dispatch (SET_SESSION_ID session_id) ;;
      localStorage_setItem session_id
  | Resolved _ true None | Rejected =>
      dispatch (SET_ERROR (Some "Failed to create session"))
  end ;;
  dispatch (SET_LOADING false).

Definition read_sessionId : Eff (option string) :=
  fun e => (sessionId (state e), e).

(** The effect of [ChatInterface], [if (!sessionId) createSession()]; it
    runs at mount and after each change of [sessionId].  The answer tells
    whether a POST is now awaited. *)
Definition ChatInterface_effect : Eff bool :=
  sid <- read_sessionId ;;
  if no_saved_session sid then createSession_begin ;; ret true
  else ret false.

(** What the provider's effect awaits after it ran. *)
Inductive Awaited :=
| Awaits_POST
| Awaits_GET (saved : string).

(** The provider's effect up to its first [await]. *)
Definition validateOrCreate_begin : Eff Awaited :=
  savedSessionId <- localStorage_getItem ;;
  match savedSessionId with
  | None => createSession_begin ;; ret Awaits_POST
  | Some saved =>
      if no_saved_session savedSessionId
      then createSession_begin ;; ret Awaits_POST
      else request (GET_context saved) ;; ret (Awaits_GET saved)
  end.

(** The provider's effect from the response of the GET on.  The answer
    tells whether [createSession] was called, so that a POST is awaited. *)
Definition validateOrCreate_settle (saved : string) (res : FetchOutcome unit)
  : Eff bool :=
  match res with
  | Resolved status ok _ =>
      if (status =? 404) || (status =? 410) then
        localStorage_removeItem ;; createSession_begin ;; ret true
      else if negb ok then
        localStorage_removeItem ;; createSession_begin ;; ret true
      else dispatch (SET_SESSION_ID saved) ;; ret false
  | Rejected =>
      localStorage_removeItem ;; createSession_begin ;; ret true
  end.

(** The provider's effect with each response arriving at once. *)
Definition validateOrCreate_at_once (srv : Server) : Eff unit :=
  awaited <- validateOrCreate_begin ;;
  match awaited with
  | Awaits_POST => createSession_settle (post_sessions srv)
  | Awaits_GET saved =>
      again <- validateOrCreate_settle saved (get_context srv saved) ;;
      if again then createSession_settle (post_sessions srv) else ret tt
  end.

(** The mount: React runs the effects of a child before those of the
    component that contains it. *)
Definition mount_effects : Eff (bool * Awaited) :=
  posted <- ChatInterface_effect ;;
  awaited <- validateOrCreate_begin ;;
  ret (posted, awaited).

End Mount.

(** * Properties *)

(** ** Facts about the array helpers *)

Module JsArrayFacts.
Import JsArray.

Section Facts.
Context {A : Type}.

Lemma findIndex_from_absent (p : A -> bool) (l : list A) (i : Z) :
  (forall x, In x l -> p x = false) -> findIndex_from p l i = -1.
Proof.
  revert i; induction l as [|x r IH]; intros i Hall; simpl.
  - reflexivity.
  - rewrite (Hall x (or_introl eq_refl)).
    apply IH; intros y Hy; apply Hall; right; exact Hy.
Qed.

Lemma findIndex_from_first (p : A -> bool) (l r : list A) (y : A) (i : Z) :
  (forall x, In x l -> p x = false) -> p y = true ->
  findIndex_from p (l ++ y :: r) i = i + Z.of_nat (List.length l).
Proof.
  revert i; induction l as [|x l IH]; intros i Hall Hy; simpl.
  - rewrite Hy; lia.
  - rewrite (Hall x (or_introl eq_refl)).
    rewrite IH by (auto; intros z Hz; apply Hall; right; exact Hz).
    lia.
Qed.

Lemma mapi_from_untouched (g : A -> A) (k : Z) (l : list A) (i : Z) :
  k < i ->
  mapi_from (fun x j => if j =? k then g x else x) l i = l.
Proof.
  revert i; induction l as [|x r IH]; intros i Hk; simpl.
  - reflexivity.
  - destruct (Z.eqb_spec i k); [lia|].
    rewrite IH by lia; reflexivity.
Qed.

Lemma mapi_from_at (g : A -> A) (l r : list A) (y : A) (i : Z) :
  mapi_from (fun x j => if j =? i + Z.of_nat (List.length l) then g x else x)
            (l ++ y :: r) i
  = l ++ g y :: r.
Proof.
  revert i; induction l as [|x l IH]; intros i; simpl.
  - replace (i + 0) with i by lia.
    rewrite Z.eqb_refl, mapi_from_untouched by lia; reflexivity.
  - destruct (Z.eqb_spec i (i + Z.pos (Pos.of_succ_nat (List.length l))));
      [lia|].
    replace (i + Z.pos (Pos.of_succ_nat (List.length l)))
      with ((i + 1) + Z.of_nat (List.length l)) by lia.
    rewrite IH; reflexivity.
Qed.

Lemma mapi_from_Forall (P : A -> Prop) (f : A -> Z -> A) (l : list A) (i : Z) :
  (forall x j, P x -> P (f x j)) ->
  Forall P l -> Forall P (mapi_from f l i).
Proof.
  intros Hf; revert i; induction l as [|x r IH]; intros i Hl; simpl.
  - constructor.
  - inversion Hl; subst; constructor; auto.
Qed.

Lemma last_elem_snoc (l : list A) (x : A) : last_elem (l ++ [x]) = Some x.
Proof.
  unfold last_elem.
  rewrite length_app; simpl.
  replace (Nat.pred (List.length l + 1)) with (List.length l) by lia.
  rewrite nth_error_app2 by lia.
  rewrite Nat.sub_diag; reflexivity.
Qed.

Lemma NoDup_slice0 (n : nat) (l : list A) : NoDup l -> NoDup (slice0 n l).
Proof.
  unfold slice0; revert l; induction n as [|n IH]; intros l Hl; simpl.
  - constructor.
  - destruct l as [|x r]; [constructor|].
    inversion Hl; subst; constructor; [|auto].
    intros Hin; apply H1.
    rewrite <- (firstn_skipn n r); apply in_or_app; left; exact Hin.
Qed.

End Facts.

End JsArrayFacts.

(** ** The reducer: cart arithmetic, cart lines, search history *)

Module AppStateFacts.
Import JsArray JsArrayFacts AppStateContext.

(** The [reduce] of the source computes the sum of the line totals. *)
Lemma sum_total_price_from (items : list CartItem) (acc : Z) :
  fold_left (fun sum item => sum + total_price item) items acc
  = acc + line_totals_sum items.
Proof.
  revert acc; induction items as [|x r IH]; intros acc.
  - unfold line_totals_sum; simpl; lia.
  - simpl fold_left; rewrite IH; unfold line_totals_sum; simpl; lia.
Qed.

Lemma sum_total_price_is_sum (items : list CartItem) :
  sum_total_price items = line_totals_sum items.
Proof. unfold sum_total_price; rewrite sum_total_price_from; lia. Qed.

(** Every action keeps [cartTotal] equal to the sum of the line totals. *)
Lemma appReducer_consistent (s : AppState) (a : AppAction) :
  cart_consistent s -> cart_consistent (appReducer s a).
Proof.
  unfold cart_consistent; intros H.
  destruct a; simpl; auto using sum_total_price_is_sum.
Qed.

Lemma dispatch_all_consistent (actions : list AppAction) (s : AppState) :
  cart_consistent s -> cart_consistent (dispatch_all s actions).
Proof.
  revert s; induction actions as [|a r IH]; intros s H; simpl.
  - exact H.
  - apply IH, appReducer_consistent, H.
Qed.

(** C1 (as amended). After every prefix of every sequence of reducer
    actions applied to the initial state -- in particular of the cart
    mutations ADD_TO_CART, UPDATE_CART_ITEM, REMOVE_FROM_CART and
    CLEAR_CART -- [cartTotal] equals the sum of the [total_price] of the
    current cart lines.  The reducer adds no tax: [cartTotal] is the
    untaxed subtotal. *)
Theorem cart_total_is_sum_of_line_totals :
  forall (actions : list AppAction) (k : nat),
    let s := dispatch_all initialState (firstn k actions) in
    cartTotal s = line_totals_sum (cartItems s).
Proof.
  intros actions k.
  apply (dispatch_all_consistent (firstn k actions) initialState).
  reflexivity.
Qed.

(** C1 (as stated) fails: after adding one line of total 2000 the state's
    [cartTotal] is 2000, the sum of the line totals, and differs from that
    subtotal plus tax at every positive rate. *)
Lemma cart_total_has_no_tax :
  let line := {| id := "cart_1"; product_id := "prod_001";
                 product_name := "Headphones"; quantity := 2;
                 unit_price := 1000; total_price := 2000 |} in
  let s := dispatch_all initialState [ADD_TO_CART line] in
  is_cart_mutation (ADD_TO_CART line) = true /\
  cartTotal s = 2000 /\
  line_totals_sum (cartItems s) = 2000 /\
  forall percent, 0 < percent ->
    cartTotal s <> with_tax percent (line_totals_sum (cartItems s)).
Proof.
  cbv zeta; repeat split.
  intros percent Hpos.
  change (2000 <> with_tax percent 2000); unfold with_tax.
  assert (2000 * percent / 100 = 20 * percent) as ->.
  { replace (2000 * percent) with (20 * percent * 100) by lia.
    apply Z.div_mul; lia. }
  lia.
Qed.

(** *** Adding the same product twice *)

Lemma filter_absent {A : Type} (p : A -> bool) (l : list A) :
  (forall x, In x l -> p x = false) -> filter p l = [].
Proof.
  induction l as [|x r IH]; intros Hall; simpl.
  - reflexivity.
  - rewrite (Hall x (or_introl eq_refl)).
    apply IH; intros y Hy; apply Hall; right; exact Hy.
Qed.

Lemma no_line_for (P : string) (items : list CartItem) :
  (forall item, In item items -> product_id item <> P) ->
  forall item, In item items -> (product_id item =? P)%string = false.
Proof.
  intros H item Hin; apply String.eqb_neq, H, Hin.
Qed.

(** ADD_TO_CART of a product that has no line appends the payload. *)
Lemma add_new_line (s : AppState) (payload : CartItem) :
  (forall item, In item (cartItems s) ->
                product_id item <> product_id payload) ->
  cartItems (appReducer s (ADD_TO_CART payload)) = cartItems s ++ [payload].
Proof.
  intros H; simpl; unfold findIndex.
  rewrite findIndex_from_absent by (apply no_line_for, H).
  reflexivity.
Qed.

(** ADD_TO_CART of the product of the last line, absent before it, merges
    the payload into that line. *)
Lemma add_to_last_line (s : AppState) (items : list CartItem)
  (line payload : CartItem) :
  cartItems s = items ++ [line] ->
  (forall item, In item items -> product_id item <> product_id payload) ->
  product_id line = product_id payload ->
  cartItems (appReducer s (ADD_TO_CART payload))
  = items ++ [merge_line line payload].
Proof.
  intros Hs Habsent Hsame; simpl; rewrite Hs; unfold findIndex, mapi.
  rewrite findIndex_from_first;
    [| apply no_line_for, Habsent | apply String.eqb_eq, Hsame].
  destruct (Z.geb_spec (0 + Z.of_nat (List.length items)) 0) as [_ | Hneg];
    [| lia].
  apply (mapi_from_at (fun item => merge_line item payload)).
Qed.

(** C3. From a cart with no line for product [P], adding [P] with quantity
    2 and then [P] with quantity 3, both at unit price [U], yields the old
    lines followed by exactly one line for [P], of quantity 5 and
    [total_price = 5 * U]. *)
Theorem add_twice_yields_single_line :
  forall (s : AppState) (P : string) (U : Z)
         (id1 id2 name1 name2 : string) (t1 t2 : Z),
    (forall item, In item (cartItems s) -> product_id item <> P) ->
    let first := {| id := id1; product_id := P; product_name := name1;
                    quantity := 2; unit_price := U; total_price := t1 |} in
    let second := {| id := id2; product_id := P; product_name := name2;
                     quantity := 3; unit_price := U; total_price := t2 |} in
    let merged := {| id := id1; product_id := P; product_name := name1;
                     quantity := 5; unit_price := U; total_price := 5 * U |} in
    let s' := dispatch_all s [ADD_TO_CART first; ADD_TO_CART second] in
    cartItems s' = cartItems s ++ [merged] /\
    lines_for P (cartItems s') = [merged].
Proof.
  intros s P U id1 id2 name1 name2 t1 t2 Habsent first second merged s'.
  assert (Hitems : cartItems s' = cartItems s ++ [merged]).
  { change (cartItems (appReducer (appReducer s (ADD_TO_CART first))
                                  (ADD_TO_CART second))
            = cartItems s ++ [merge_line first second]).
    apply add_to_last_line;
      [apply add_new_line, Habsent | exact Habsent | reflexivity]. }
  split; [exact Hitems|].
  rewrite Hitems; unfold lines_for.
  rewrite filter_app, filter_absent by (apply no_line_for, Habsent).
  simpl; rewrite String.eqb_refl; reflexivity.
Qed.

Lemma add_twice_yields_single_line_witness :
  let first := {| id := "cart_1"; product_id := "prod_001";
                  product_name := "Headphones"; quantity := 2;
                  unit_price := 19999; total_price := 39998 |} in
  let second := {| id := "cart_2"; product_id := "prod_001";
                   product_name := "Headphones"; quantity := 3;
                   unit_price := 19999; total_price := 59997 |} in
  let merged := {| id := "cart_1"; product_id := "prod_001";
                   product_name := "Headphones"; quantity := 5;
                   unit_price := 19999; total_price := 99995 |} in
  let s' := dispatch_all initialState [ADD_TO_CART first; ADD_TO_CART second] in
  (forall item, In item (cartItems initialState) ->
                product_id item <> "prod_001") /\
  cartItems s' = [merged] /\
  lines_for "prod_001" (cartItems s') = [merged].
Proof.
  cbv zeta; split.
  - intros item Hin; destruct Hin.
  - refine (add_twice_yields_single_line initialState "prod_001" 19999
              "cart_1" "cart_2" "Headphones" "Headphones" 39998 59997 _).
    intros item Hin; destruct Hin.
Defined.

(** *** The cart-line invariant *)

(** C4 fails on the code.  [addToCart] dispatches the line it is given
    without checking it, so three calls of the public actions reach carts
    that break the invariant: a new line of quantity 0; a new line whose
    [total_price] is not [quantity * unit_price]; and a line whose quantity
    drops to 0 when a negative quantity is added to it. *)
Theorem addToCart_breaks_line_invariant :
  let item q t := {| in_product_id := "prod_001";
                     in_product_name := "Headphones";
                     in_quantity := q; in_unit_price := 1000;
                     in_total_price := t |} in
  let line q t := {| id := "cart_1"; product_id := "prod_001";
                     product_name := "Headphones"; quantity := q;
                     unit_price := 1000; total_price := t |} in
  cartItems (call_all initialState [addToCart "cart_1" (item 0 0)])
    = [line 0 0] /\
  cartItems (call_all initialState [addToCart "cart_1" (item 1 999)])
    = [line 1 999] /\
  cartItems (call_all initialState [addToCart "cart_1" (item 2 2000);
                                    addToCart "cart_2" (item (-2) (-2000))])
    = [line 0 0] /\
  ~ line_ok (line 0 0) /\ ~ line_ok (line 1 999).
Proof.
  cbv zeta; repeat split; unfold line_ok; simpl; lia.
Qed.

Lemma merge_line_ok (item payload : CartItem) :
  line_ok item -> 0 < quantity payload -> line_ok (merge_line item payload).
Proof. unfold line_ok; simpl; intros [Hq _] Hp; split; [lia | reflexivity]. Qed.

Lemma requantify_ok (item : CartItem) (q : Z) :
  0 < q -> line_ok (requantify item q).
Proof. unfold line_ok; simpl; intros Hq; split; [exact Hq | reflexivity]. Qed.

(** A call that passes [call_ok] keeps every line well formed. *)
Lemma dispatched_keeps_lines_ok (s : AppState) (c : ContextCall) :
  call_ok c -> Forall line_ok (cartItems s) ->
  Forall line_ok (cartItems (appReducer s (dispatched c))).
Proof.
  intros Hc Hs; destruct c as [gid item | cid q | cid |]; simpl dispatched.
  - destruct Hc as [Hq Ht]; simpl.
    match goal with |- context [if ?b then _ else _] => destruct b end.
    + apply mapi_from_Forall; [|exact Hs].
      intros x j Hx; destruct (j =? _); [|exact Hx].
      apply merge_line_ok; [exact Hx | exact Hq].
    + apply Forall_app; split; [exact Hs|].
      constructor; [|constructor].
      unfold line_ok; simpl; auto.
  - destruct (Z.leb_spec q 0) as [Hle | Hlt]; simpl.
    + apply Forall_forall; intros x Hx; apply filter_In in Hx.
      rewrite Forall_forall in Hs; apply Hs, Hx.
    + apply Forall_forall; intros x Hx; apply in_map_iff in Hx.
      destruct Hx as [y [Hy Hin]]; subst x.
      rewrite Forall_forall in Hs.
      destruct (id y =? cid)%string; [apply requantify_ok, Hlt | apply Hs, Hin].
  - simpl; apply Forall_forall; intros x Hx; apply filter_In in Hx.
    rewrite Forall_forall in Hs; apply Hs, Hx.
  - constructor.
Qed.

(** What does hold of the provider's actions: when every line handed to
    [addToCart] has a positive quantity and a consistent total, so has
    every line of every reachable cart, whatever the arguments of
    [updateCartItem], [removeFromCart] and [clearCart]. *)
Lemma cart_lines_ok_when_added_lines_ok (calls : list ContextCall) :
  Forall call_ok calls ->
  Forall line_ok (cartItems (call_all initialState calls)).
Proof.
  unfold call_all, dispatch_all.
  assert (H : forall s, Forall line_ok (cartItems s) -> Forall call_ok calls ->
                        Forall line_ok
                          (cartItems (fold_left appReducer
                                        (map dispatched calls) s))).
  { induction calls as [|c r IH]; intros s Hs Hcalls; simpl.
    - exact Hs.
    - inversion Hcalls; subst.
      apply IH; [apply dispatched_keeps_lines_ok; assumption | assumption]. }
  intros Hcalls; apply H; [constructor | exact Hcalls].
Qed.

(** *** Search history *)

Lemma dispatch_all_snoc (s : AppState) (actions : list AppAction)
  (a : AppAction) :
  dispatch_all s (actions ++ [a]) = appReducer (dispatch_all s actions) a.
Proof. unfold dispatch_all; rewrite fold_left_app; reflexivity. Qed.

Lemma history_after_query (s : AppState) (q : string) :
  NoDup (searchHistory s) ->
  let h := searchHistory (appReducer s (ADD_SEARCH_QUERY q)) in
  (List.length h <= 10)%nat /\ NoDup h /\ hd_error h = Some q.
Proof.
  intros Hs h.
  assert (Hh : h = slice0 10 (q :: filter (fun q' => negb (q' =? q)%string)
                                          (searchHistory s)))
    by reflexivity.
  rewrite Hh; clear Hh h; repeat split.
  - unfold slice0; apply firstn_le_length.
  - apply NoDup_slice0; constructor.
    + intros Hin; apply filter_In in Hin; destruct Hin as [_ Hne].
      rewrite String.eqb_refl in Hne; discriminate.
    + apply NoDup_filter, Hs.
Qed.

(** C10. After any sequence of ADD_SEARCH_QUERY actions applied to the
    initial state, [searchHistory] has at most 10 entries, has no duplicate,
    and starts with the query added last. *)
Theorem search_history_bounded_distinct_recent_first :
  forall (queries : list string),
    let s := dispatch_all initialState (map ADD_SEARCH_QUERY queries) in
    (List.length (searchHistory s) <= 10)%nat /\
    NoDup (searchHistory s) /\
    hd_error (searchHistory s) = hd_error (rev queries).
Proof.
  intros queries; cbv zeta.
  induction queries as [|q queries IH] using rev_ind.
  - simpl; repeat split; [lia | constructor].
  - rewrite map_app, rev_app_distr; simpl map; simpl rev.
    rewrite dispatch_all_snoc.
    destruct IH as [_ [Hnodup _]].
    apply (history_after_query _ q Hnodup).
Qed.

(** *** Validation of the saved session *)

Lemma createSession_requests (srv : Server) (e : Env) :
  requests (exec (createSession srv) e) = requests e ++ [POST_sessions].
Proof.
  unfold exec, createSession, bind, fetch, dispatch; simpl.
  destruct (post_sessions srv) as [|status [|] [sid|]]; reflexivity.
Qed.

Lemma createSession_localStorage (srv : Server) (e : Env) :
  localStorage (exec (createSession srv) e)
  = match fresh_session srv with
    | Some sid => Some sid
    | None => localStorage e
    end.
Proof.
  unfold exec, createSession, fresh_session, bind, fetch, dispatch; simpl.
  destruct (post_sessions srv) as [|status [|] [sid|]]; reflexivity.
Qed.

Lemma createSession_sessionId (srv : Server) (e : Env) :
  sessionId (state (exec (createSession srv) e))
  = match fresh_session srv with
    | Some sid => Some sid
    | None => sessionId (state e)
    end.
Proof.
  unfold exec, createSession, fresh_session, bind, fetch, dispatch; simpl.
  destruct (post_sessions srv) as [|status [|] [sid|]]; reflexivity.
Qed.

(** The two outcomes of the mount effect for a non-empty saved id. *)
Lemma validateOrCreate_cases (srv : Server) (e : Env) (saved : string) :
  localStorage e = Some saved -> saved <> "" ->
  exec (validateOrCreate srv) e
  = match get_context srv saved with
    | Resolved status ok _ =>
        if (status =? 404) || (status =? 410) || negb ok
        then exec (createSession srv) (dropped saved e)
        else adopted saved e
    | Rejected => exec (createSession srv) (dropped saved e)
    end.
Proof.
  intros Hsaved Hne.
  unfold exec, validateOrCreate, bind, localStorage_getItem.
  rewrite Hsaved; unfold no_saved_session.
  destruct (String.eqb_spec saved "") as [Heq | _]; [contradiction|].
  unfold fetch, localStorage_removeItem; cbv beta iota.
  destruct (get_context srv saved) as [|status ok body]; [reflexivity|].
  destruct (status =? 404); [reflexivity|].
  destruct (status =? 410); [reflexivity|].
  destruct ok; reflexivity.
Qed.

(** C9. With a non-empty saved session id, the context of that id is
    fetched once.  If the answer is status 404 or 410, any other non-OK
    response, or a network failure, the saved id is removed from
    [localStorage] and [createSession] runs (once) from there: the stored id
    and the active session become the fresh id if the creation succeeds,
    and otherwise the store stays empty and the session is left as it was.
    In every other case the saved id is dispatched as the active session,
    and that happens only for a response whose [ok] flag is set. *)
Theorem saved_session_is_dropped_unless_ok :
  forall (srv : Server) (e : Env) (saved : string),
    localStorage e = Some saved -> saved <> "" ->
    let e' := exec (validateOrCreate srv) e in
    (rejects_saved_session (get_context srv saved) ->
       e' = exec (createSession srv) (dropped saved e) /\
       localStorage (dropped saved e) = None /\
       requests e' = requests e ++ [GET_context saved; POST_sessions] /\
       localStorage e' = fresh_session srv /\
       sessionId (state e') = match fresh_session srv with
                              | Some sid => Some sid
                              | None => sessionId (state e)
                              end) /\
    (~ rejects_saved_session (get_context srv saved) ->
       e' = adopted saved e /\
       sessionId (state e') = Some saved /\
       localStorage e' = Some saved /\
       requests e' = requests e ++ [GET_context saved]) /\
    (e' = adopted saved e ->
       exists status, get_context srv saved = Resolved status true tt).
Proof.
  intros srv e saved Hsaved Hne e'.
  assert (Hcases := validateOrCreate_cases srv e saved Hsaved Hne).
  fold e' in Hcases.
  assert (Hdrop : e' = exec (createSession srv) (dropped saved e) ->
                  e' = exec (createSession srv) (dropped saved e) /\
                  localStorage (dropped saved e) = None /\
                  requests e' = requests e ++ [GET_context saved; POST_sessions] /\
                  localStorage e' = fresh_session srv /\
                  sessionId (state e') = match fresh_session srv with
                                         | Some sid => Some sid
                                         | None => sessionId (state e)
                                         end).
  { intros He; rewrite He.
    rewrite createSession_requests, createSession_localStorage,
      createSession_sessionId.
    repeat split.
    - simpl; rewrite <- app_assoc; reflexivity.
    - destruct (fresh_session srv); reflexivity. }
  assert (Hlen : e' = adopted saved e ->
                 e' <> exec (createSession srv) (dropped saved e)).
  { intros Ha Hd.
    assert (Hr : requests (adopted saved e)
                 = requests (exec (createSession srv) (dropped saved e)))
      by (rewrite <- Ha, <- Hd; reflexivity).
    rewrite createSession_requests in Hr; simpl in Hr.
    apply (f_equal (@List.length Request)) in Hr.
    rewrite !length_app in Hr; simpl in Hr; lia. }
  destruct (get_context srv saved) as [|status ok []] eqn:Hctx.
  - (* network failure *)
    split; [intros _; apply Hdrop, Hcases|].
    split.
    + intros Hnot; exfalso; apply Hnot; left; reflexivity.
    + intros Ha; exfalso; exact (Hlen Ha Hcases).
  - destruct ((status =? 404) || (status =? 410) || negb ok) eqn:Hbad.
    + (* 404, 410 or not OK *)
      split; [intros _; apply Hdrop, Hcases|].
      split.
      * intros Hnot; exfalso; apply Hnot; right.
        exists status, ok; split; [reflexivity|].
        apply orb_true_iff in Hbad; destruct Hbad as [Hbad | Hbad].
        -- apply orb_true_iff in Hbad; destruct Hbad as [Hbad | Hbad];
             apply Z.eqb_eq in Hbad; auto.
        -- right; right; destruct ok; [discriminate | reflexivity].
      * intros Ha; exfalso; exact (Hlen Ha Hcases).
    + (* OK *)
      apply orb_false_iff in Hbad; destruct Hbad as [Hbad Hok].
      apply orb_false_iff in Hbad; destruct Hbad as [H404 H410].
      apply Z.eqb_neq in H404; apply Z.eqb_neq in H410.
      destruct ok; [|discriminate].
      split.
      * intros [Hrej | [st [ok' [Heq Hor]]]]; [discriminate|].
        injection Heq as Hst Hok'; subst st ok'.
        destruct Hor as [? | [? | ?]]; [contradiction | contradiction | discriminate].
      * split.
        -- intros _; rewrite Hcases; simpl; repeat split; exact Hsaved.
        -- intros _; exists status; reflexivity.
Qed.

Lemma saved_session_is_dropped_unless_ok_witness :
  let srv := {| post_sessions := Resolved 201 true (Some "sess_new");
                get_context := fun _ => Resolved 404 false tt |} in
  let e := {| localStorage := Some "sess_old"; state := initialState;
              requests := [] |} in
  localStorage e = Some "sess_old" /\ "sess_old" <> "" /\
  localStorage (exec (validateOrCreate srv) e) = Some "sess_new" /\
  sessionId (state (exec (validateOrCreate srv) e)) = Some "sess_new" /\
  requests (exec (validateOrCreate srv) e)
  = [GET_context "sess_old"; POST_sessions].
Proof.
  cbv zeta.
  split; [reflexivity|].
  split; [discriminate|].
  assert (Hne : "sess_old" <> "") by discriminate.
  assert (Hrej : rejects_saved_session (Resolved 404 false tt)).
  { right; exists 404, false; split; [reflexivity | left; reflexivity]. }
  destruct (proj1 (saved_session_is_dropped_unless_ok
                     {| post_sessions := Resolved 201 true (Some "sess_new");
                        get_context := fun _ => Resolved 404 false tt |}
                     {| localStorage := Some "sess_old";
                        state := initialState; requests := [] |}
                     "sess_old" eq_refl Hne) Hrej)
    as [_ [_ [Hreq [Hls Hsid]]]].
  split; [exact Hls|]; split; [exact Hsid | exact Hreq].
Defined.

End AppStateFacts.

(** ** The streaming hook: text chunks, reconnect counter, backoff *)

Module UseSSEConnectionFacts.
Import JsArray JsArrayFacts UseSSEConnection.

(** *** Text chunks *)

Lemma extend_last_empty (now : Z) (text : string) :
  extend_last now text [] = [assistant_message now text].
Proof. reflexivity. Qed.

Lemma extend_last_snoc (now : Z) (text : string) (init : list Message)
  (m : Message) :
  extend_last now text (init ++ [m])
  = if is_assistant m
    then init ++ [append_content m text]
    else (init ++ [m]) ++ [assistant_message now text].
Proof.
  unfold extend_last; rewrite last_elem_snoc.
  destruct (is_assistant m); [|reflexivity].
  unfold mapi.
  replace (Z.of_nat (List.length (init ++ [m])) - 1)
    with (0 + Z.of_nat (List.length init))
    by (rewrite length_app; simpl; lia).
  apply (mapi_from_at (fun msg => append_content msg text)).
Qed.

(** C7. For a partial chunk: when the last message is an assistant
    message, its content is extended by the chunk's content and no message
    is added; when it is of another type, or the list is empty, a new
    assistant message holding exactly the chunk's content is appended.  A
    non-partial chunk always appends such a message. *)
Theorem handleTextChunk_extends_or_appends :
  forall (now : Z) (text : string) (s : HookState)
         (init : list Message) (m : Message),
    messages (handleTextChunk now (partial_chunk text)
                (with_messages (init ++ [m]) s))
    = (if is_assistant m
       then init ++ [append_content m text]
       else (init ++ [m]) ++ [assistant_message now text]) /\
    messages (handleTextChunk now (partial_chunk text) (with_messages [] s))
    = [assistant_message now text] /\
    messages (handleTextChunk now (final_chunk text) s)
    = messages s ++ [assistant_message now text] /\
    content (append_content m text) = (content m ++ text)%string /\
    type (append_content m text) = type m /\
    content (assistant_message now text) = text /\
    type (assistant_message now text) = T_assistant.
Proof.
  intros now text s init m.
  split; [apply extend_last_snoc|].
  repeat split.
Qed.

(** *** The reconnect counter *)

Lemma connect_reconnectAttempts (o : SSEConnectionOptions) (s : HookState) :
  reconnectAttempts (connect o s) = reconnectAttempts s.
Proof. unfold connect; destruct (sessionId o =? "")%string; reflexivity. Qed.

Lemma onerror_reconnectAttempts (o : SSEConnectionOptions) (s : HookState) :
  reconnectAttempts (onerror o s) = reconnectAttempts s.
Proof.
  unfold onerror; simpl.
  destruct (Z.of_nat (reconnectAttempts s) <? maxReconnectAttempts o);
    reflexivity.
Qed.

(** How one event moves the counter. *)
Lemma step_reconnectAttempts (o : SSEConnectionOptions) (s : HookState)
  (e : Event) :
  reconnectAttempts (step o s e)
  = if is_open_or_reconnect e then O
    else if is_attempt s e then S (reconnectAttempts s)
         else reconnectAttempts s.
Proof.
  destruct e as [ | now payload | | i | | now data | now data | | ]; simpl.
  - reflexivity.
  - destruct payload; simpl; auto using onerror_reconnectAttempts.
  - apply onerror_reconnectAttempts.
  - destruct (nth_error (pendingTimers s) i); [|reflexivity].
    unfold reconnect_timer_callback; rewrite connect_reconnectAttempts.
    reflexivity.
  - unfold reconnect; rewrite connect_reconnectAttempts; reflexivity.
  - unfold handleTextChunk; destruct (chunk_partial data); reflexivity.
  - reflexivity.
  - reflexivity.
  - reflexivity.
Qed.

(** The counter is the number of attempts since it was last reset. *)
Lemma counter_counts_attempts (o : SSEConnectionOptions) (tr : list Event) :
  forall (s : HookState),
    reconnectAttempts (run o s tr)
    = attempts_since is_open_or_reconnect o s (reconnectAttempts s) tr.
Proof.
  unfold run; induction tr as [|e tr IH]; intros s; simpl.
  - reflexivity.
  - rewrite IH, step_reconnectAttempts; reflexivity.
Qed.

(** What the failure handler does, by the value of the counter. *)
Lemma onerror_effect (o : SSEConnectionOptions) (s : HookState) :
  let s' := onerror o s in
  if Z.of_nat (reconnectAttempts s) <? maxReconnectAttempts o
  then pendingTimers s'
       = pendingTimers s
         ++ [baseReconnectDelay o * 2 ^ Z.of_nat (reconnectAttempts s)]
       /\ error s' = error s
       /\ onErrorCalls s' = onErrorCalls s
  else pendingTimers s' = pendingTimers s
       /\ error s' = Some max_attempts_message
       /\ onErrorCalls s' = onErrorCalls s ++ [max_attempts_message].
Proof.
  unfold onerror; simpl.
  destruct (Z.of_nat (reconnectAttempts s) <? maxReconnectAttempts o);
    repeat split.
Qed.

(** C2 (as amended). After any sequence of events of the hook, the attempt
    counter is the number [n] of reconnection attempts made since the last
    successful open or manual [reconnect()].  When the connection then
    fails, the handler ([onerror], and likewise the ['error'] listener for
    an event without data) arms one timer of delay
    [baseReconnectDelay * 2^n] if [n < maxReconnectAttempts]; otherwise it
    arms none, sets the error to 'Max reconnection attempts reached' and
    passes it to [onError]. *)
Theorem backoff_from_last_reset :
  forall (o : SSEConnectionOptions) (tr : list Event),
    reconnectAttempts (run o initial tr) = attempts_since_reset o tr /\
    backoff_holds attempts_since_reset o tr /\
    (forall now, error_listener o now NoData (run o initial tr)
                 = onerror o (run o initial tr)).
Proof.
  intros o tr.
  assert (Hn : reconnectAttempts (run o initial tr) = attempts_since_reset o tr)
    by apply counter_counts_attempts.
  split; [exact Hn|]; split; [|reflexivity].
  unfold backoff_holds; cbv zeta; rewrite <- Hn.
  apply onerror_effect.
Qed.

(** C2 (as stated) fails: the connection fails, one attempt is made, then
    [reconnect()] is called without any successful open; the next failure
    arms a timer of the base delay 1000, although one attempt has been made
    since the last successful open, for which the stated rule gives 2000.
    The same holds when each failure is delivered to both the listener and
    [onerror]: two attempts are made, and the delay after [reconnect()] is
    1000 where the stated rule gives 4000. *)
Lemma backoff_restarts_after_manual_reconnect :
  let o := default_options "sess_1" in
  let tr := [EvOnError; EvTimer 0; EvReconnect] in
  let tr2 := [EvErrorListener 0 NoData; EvOnError; EvTimer 0; EvTimer 0;
              EvReconnect] in
  attempts_since_open o tr = 1%nat /\
  pendingTimers (onerror o (run o initial tr)) = [1000] /\
  ~ backoff_holds attempts_since_open o tr /\
  attempts_since_open o tr2 = 2%nat /\
  pendingTimers (onerror o (run o initial tr2)) = [1000] /\
  ~ backoff_holds attempts_since_open o tr2.
Proof.
  cbv zeta.
  split; [reflexivity|]; split; [reflexivity|]; split; [|split; [|split]].
  - unfold backoff_holds; cbv zeta.
    change (attempts_since_open (default_options "sess_1")
              [EvOnError; EvTimer 0; EvReconnect]) with 1%nat.
    change (Z.of_nat 1 <? maxReconnectAttempts (default_options "sess_1"))
      with true; cbv iota.
    intros [Htimers _].
    change ([1000] = [] ++ [1000 * 2 ^ Z.of_nat 1]) in Htimers.
    discriminate Htimers.
  - reflexivity.
  - reflexivity.
  - unfold backoff_holds; cbv zeta.
    change (attempts_since_open (default_options "sess_1")
              [EvErrorListener 0 NoData; EvOnError; EvTimer 0; EvTimer 0;
               EvReconnect]) with 2%nat.
    change (Z.of_nat 2 <? maxReconnectAttempts (default_options "sess_1"))
      with true; cbv iota.
    intros [Htimers _].
    change ([1000] = [] ++ [1000 * 2 ^ Z.of_nat 2]) in Htimers.
    discriminate Htimers.
Qed.

(** The same failure, seen as one DOM event: it reaches the listener and
    [onerror], and each arms a timer of the same delay. *)
Remark network_error_arms_two_timers (o : SSEConnectionOptions) (now : Z)
  (s : HookState) :
  Z.of_nat (reconnectAttempts s) < maxReconnectAttempts o ->
  pendingTimers (dispatch_network_error o now s)
  = pendingTimers s ++ [reconnect_delay o (reconnectAttempts s);
                        reconnect_delay o (reconnectAttempts s)].
Proof.
  intros Hlt; unfold dispatch_network_error, error_listener, onerror; simpl.
  apply Z.ltb_lt in Hlt; rewrite Hlt; simpl; rewrite Hlt; simpl.
  rewrite <- app_assoc; reflexivity.
Qed.

(** C8. The [onopen] handler leaves the attempt counter at 0, so a failure
    that follows arms a timer of the base delay (when at least one attempt
    is allowed); [reconnect()] sets the counter to 0 and then connects. *)
Theorem counter_is_reset_on_open_and_reconnect :
  forall (o : SSEConnectionOptions) (s : HookState),
    reconnectAttempts (onopen s) = 0%nat /\
    pendingTimers (onerror o (onopen s))
    = (if 0 <? maxReconnectAttempts o
       then pendingTimers s ++ [baseReconnectDelay o]
       else pendingTimers s) /\
    reconnect o s = connect o (set_reconnectAttempts 0 s) /\
    reconnectAttempts (reconnect o s) = 0%nat.
Proof.
  intros o s; split; [reflexivity|]; split; [|split].
  - unfold onerror, onopen; simpl.
    destruct (0 <? maxReconnectAttempts o); simpl; [|reflexivity].
    unfold reconnect_delay; simpl.
    rewrite Z.mul_1_r; reflexivity.
  - reflexivity.
  - unfold reconnect; rewrite connect_reconnectAttempts; reflexivity.
Qed.

End UseSSEConnectionFacts.

(** ** The renderer: validation errors and unknown tools *)

Module FunctionCallRendererFacts.
Import Json FunctionCallRenderer.

Lemma ErrorBanner_items_length (suggestions : JSON) :
  (List.length (ErrorBanner_items suggestions) <= 5)%nat.
Proof.
  destruct suggestions; unfold ErrorBanner_items, JsArray.slice0;
    try (simpl; lia).
  rewrite length_map; apply firstn_le_length.
Qed.

(** A [valid] that is [false] can only be read from an object. *)
Lemma valid_false_is_truthy (validation : JSON) :
  get validation "valid" = JBool false ->
  truthy validation && strict_eq_bool (get validation "valid") false = true.
Proof.
  intros H; rewrite H; destruct validation; try discriminate H; reflexivity.
Qed.

(** The renderer on a call whose trimmed name is [show_product_details]. *)
Lemma render_show_product_details (fc : FunctionCall) :
  trim (name fc) = "show_product_details" ->
  let raw := normalized_result (result fc) in
  let validation := get raw "validation" in
  FunctionCallRenderer fc
  = if has_generic_error raw then generic_banner raw
    else if negb (truthy (get raw "product")) ||
            (truthy validation && strict_eq_bool (get validation "valid") false)
         then validation_banner raw
         else ComponentElement (Own ProductCard)
                (spread (parameters fc) ++ spread raw).
Proof.
  intros Hname; unfold FunctionCallRenderer; rewrite Hname.
  change (FunctionComponents_get "show_product_details")
    with (Some (Own ProductCard)).
  change ("show_product_details" =? "add_to_cart")%string with false.
  change ("show_product_details" =? "show_product_details")%string with true.
  cbv zeta beta iota; unfold has_generic_error, generic_banner.
  destruct (get (normalized_result (result fc)) "error"); reflexivity.
Qed.

(** When the result carries no string [error], a [show_product_details]
    call whose normalized result has no [product] (absent or falsy), or has
    a [validation] with [valid === false], is rendered as the banner
    "Invalid Product ID" with [validation.error] (or the default text when
    there is none) and the first 5 of [validation.suggestions], not as the
    product card. *)
Lemma validation_banner_without_error_string (fc : FunctionCall) :
  trim (name fc) = "show_product_details" ->
  validation_failed (normalized_result (result fc)) ->
  has_generic_error (normalized_result (result fc)) = false ->
  let raw := normalized_result (result fc) in
  FunctionCallRenderer fc = validation_banner raw /\
  is_product_card (FunctionCallRenderer fc) = false /\
  (List.length (displayed_suggestions (FunctionCallRenderer fc)) <= 5)%nat /\
  displayed_suggestions (FunctionCallRenderer fc)
  = match get (get raw "validation") "suggestions" with
    | JArr items => map suggestion_text (firstn 5 items)
    | _ => []
    end.
Proof.
  intros Hname Hfailed Hnone raw.
  assert (Hrender : FunctionCallRenderer fc = validation_banner raw).
  { rewrite (render_show_product_details fc Hname); fold raw.
    fold raw in Hnone; rewrite Hnone.
    destruct Hfailed as [Hproduct | Hvalid].
    - fold raw in Hproduct; rewrite Hproduct; reflexivity.
    - fold raw in Hvalid; rewrite (valid_false_is_truthy _ Hvalid).
      rewrite orb_true_r; reflexivity. }
  rewrite Hrender; split; [reflexivity|]; split; [reflexivity|]; split.
  - apply ErrorBanner_items_length.
  - reflexivity.
Qed.

(** An unknown product with six suggestions: five are displayed. *)
Example unknown_product_shows_five_suggestions :
  let fc := {| name := " show_product_details";
               parameters := JObj [("product_id", JStr "prod_999")];
               result :=
                 JObj [("data",
                        JObj [("validation",
                               JObj [("valid", JBool false);
                                     ("error", JStr "Unknown product");
                                     ("suggestions",
                                      JArr [JStr "prod_001"; JStr "prod_002";
                                            JStr "prod_003"; JStr "prod_004";
                                            JStr "prod_005"; JStr "prod_006"])
                                    ])])] |} in
  FunctionCallRenderer fc
  = ErrorBannerElement "Invalid Product ID" (JStr "Unknown product")
      (JArr [JStr "prod_001"; JStr "prod_002"; JStr "prod_003";
             JStr "prod_004"; JStr "prod_005"; JStr "prod_006"]) /\
  displayed_suggestions (FunctionCallRenderer fc)
  = [Literal "prod_001"; Literal "prod_002"; Literal "prod_003";
     Literal "prod_004"; Literal "prod_005"].
Proof.
  cbv zeta.
  match goal with
  | |- FunctionCallRenderer ?fc = _ /\ _ =>
      destruct (validation_banner_without_error_string fc eq_refl
                  (or_introl eq_refl) eq_refl) as [Hrender _]
  end.
  rewrite Hrender; split; reflexivity.
Qed.

(** C5 fails on the code.  The result below is what a failed validation
    looks like when the tool also reports it as an error: no [product], a
    [validation] with [valid === false], an error message and a
    suggestion, and a string [error].  The [genericError] branch comes
    first and returns the generic banner: the title is "Validation Error",
    not "Invalid Product ID", the message is not [validation.error], and
    the suggestion the validation branch would pass on is dropped.  The
    tests "renders add to cart failure gracefully" and "handles result
    with error" expect a result with an [error] string to reach its
    widget, so the branch is not what the rest of the repository relies
    on. *)
Theorem generic_error_hides_validation :
  let raw := JObj [("success", JBool false);
                   ("error", JStr "Product validation failed");
                   ("validation",
                    JObj [("valid", JBool false);
                          ("error", JStr "Unknown product");
                          ("suggestions", JArr [JStr "prod_001"])])] in
  let fc := {| name := "show_product_details";
               parameters := JObj [("product_id", JStr "prod_999")];
               result := raw |} in
  normalized_result (result fc) = raw /\
  get raw "product" = JUndefined /\
  get (get raw "validation") "valid" = JBool false /\
  validation_failed raw /\
  FunctionCallRenderer fc
  = ErrorBannerElement "Validation Error" (JStr "Product validation failed")
      JUndefined /\
  displayed_suggestions (FunctionCallRenderer fc) = [] /\
  displayed_suggestions (validation_banner raw) = [Literal "prod_001"] /\
  FunctionCallRenderer fc <> validation_banner raw.
Proof.
  cbv zeta; repeat split; try discriminate.
  left; reflexivity.
Qed.

(** The input of the test "renders add to cart failure gracefully", which
    expects the "Added to Cart" card: the renderer returns the generic
    banner. *)
Example add_to_cart_failure_renders_generic_banner :
  FunctionCallRenderer
    {| name := "add_to_cart";
       parameters := JObj [("product_id", JStr "prod_001");
                           ("quantity", JNum 100)];
       result := JObj [("success", JBool false);
                       ("error", JStr "Insufficient stock")] |}
  = ErrorBannerElement "Validation Error" (JStr "Insufficient stock")
      JUndefined.
Proof. reflexivity. Qed.

(** A name that is neither a key of the table, nor a member of
    [Object.prototype], nor contains "cart" gets the fallback box. *)
Lemma unknown_name_renders_fallback (fc : FunctionCall) :
  is_key (trim (name fc)) = false ->
  is_inherited (trim (name fc)) = false ->
  includes "cart" (trim (name fc)) = false ->
  FunctionCallRenderer fc
  = UnknownFunctionCall (name fc) (parameters fc).
Proof.
  unfold is_key, is_inherited, FunctionCallRenderer, FunctionComponents_get.
  intros Hkey Hinh Hcart.
  destruct (own_property (trim (name fc)) FunctionComponents);
    [discriminate|].
  rewrite Hinh, Hcart; reflexivity.
Qed.

(** The test "handles missing result data". *)
Example missing_result_renders_component :
  FunctionCallRenderer {| name := "search_products";
                          parameters := JObj [("query", JStr "test")];
                          result := JNull |}
  = ComponentElement (Own SearchResults) [("query", JStr "test")].
Proof. reflexivity. Qed.

(** The test "handles unknown function gracefully". *)
Example unknown_function_renders_fallback :
  FunctionCallRenderer {| name := "unknown_function"; parameters := JObj [];
                          result := JObj [] |}
  = UnknownFunctionCall "unknown_function" (JObj []).
Proof. reflexivity. Qed.

(** C6 fails on the code.  The name [constructor] is not a key of
    [FunctionComponents] and does not contain "cart", yet the property read
    finds [Object.prototype.constructor], a truthy value: the renderer
    skips the fallback and returns an element whose type is that inherited
    value, not the "Unknown Function Call" box. *)
Theorem inherited_name_skips_fallback :
  let fc := {| name := "constructor"; parameters := JObj [];
               result := JObj [] |} in
  is_key (trim (name fc)) = false /\
  includes "cart" (trim (name fc)) = false /\
  FunctionCallRenderer fc = ComponentElement (Inherited "constructor") [] /\
  FunctionCallRenderer fc <> UnknownFunctionCall (name fc) (parameters fc).
Proof.
  cbv zeta; repeat split; discriminate.
Qed.

End FunctionCallRendererFacts.

(** ** More on the reducer and the session bootstrap *)

Module AppStateMoreFacts.
Import JsArray JsArrayFacts AppStateContext AppStateFacts.

Section ListFacts.
Context {A : Type}.

Lemma findIndex_from_found (p : A -> bool) (l : list A) (i : Z) :
  0 <= i -> (findIndex_from p l i >=? 0) = existsb p l.
Proof.
  revert i; induction l as [|x r IH]; intros i Hi; simpl.
  - reflexivity.
  - destruct (p x); simpl.
    + apply Z.geb_le; lia.
    + apply IH; lia.
Qed.

Lemma mapi_from_keeps {B : Type} (g : A -> B) (f : A -> Z -> A)
  (l : list A) (i : Z) :
  (forall x j, g (f x j) = g x) ->
  map g (mapi_from f l i) = map g l.
Proof.
  intros Hf; revert i; induction l as [|x r IH]; intros i; simpl.
  - reflexivity.
  - rewrite Hf, IH; reflexivity.
Qed.

Lemma NoDup_map_filter {B : Type} (g : A -> B) (p : A -> bool) (l : list A) :
  NoDup (map g l) -> NoDup (map g (filter p l)).
Proof.
  induction l as [|x r IH]; intros H; simpl.
  - constructor.
  - inversion H as [|y ys Hnotin Hrest]; subst.
    destruct (p x); simpl; [|auto].
    constructor; [|auto].
    intros Hin; apply Hnotin.
    apply in_map_iff in Hin; destruct Hin as [z [Hz Hin]].
    apply filter_In in Hin; apply in_map_iff; exists z; tauto.
Qed.

Lemma NoDup_snoc (l : list A) (x : A) :
  NoDup l -> ~ In x l -> NoDup (l ++ [x]).
Proof.
  induction l as [|y r IH]; intros Hl Hx; simpl.
  - constructor; [intros [] | constructor].
  - inversion Hl; subst; constructor.
    + intros Hin; apply in_app_or in Hin; destruct Hin as [Hin | [Heq | []]].
      * contradiction.
      * apply Hx; left; symmetry; exact Heq.
    + apply IH; [assumption | intros Hin; apply Hx; right; exact Hin].
Qed.

Lemma filter_all (p : A -> bool) (l : list A) :
  (forall x, In x l -> p x = true) -> filter p l = l.
Proof.
  induction l as [|x r IH]; intros H; simpl.
  - reflexivity.
  - rewrite (H x (or_introl eq_refl)), IH; [reflexivity|].
    intros y Hy; apply H; right; exact Hy.
Qed.

Lemma map_untouched (f : A -> A) (l : list A) :
  (forall x, In x l -> f x = x) -> map f l = l.
Proof.
  induction l as [|x r IH]; intros H; simpl.
  - reflexivity.
  - rewrite (H x (or_introl eq_refl)), IH; [reflexivity|].
    intros y Hy; apply H; right; exact Hy.
Qed.

Lemma firstn_filter_all (p : A -> bool) (n : nat) (l : list A) :
  (forall x, In x l -> p x = true) -> filter p (firstn n l) = firstn n l.
Proof.
  intros H; apply filter_all; intros x Hx; apply H.
  rewrite <- (firstn_skipn n l); apply in_or_app; left; exact Hx.
Qed.

End ListFacts.

(** *** One line per product *)

Lemma appReducer_keeps_products_distinct (s : AppState) (a : AppAction) :
  NoDup (map product_id (cartItems s)) ->
  NoDup (map product_id (cartItems (appReducer s a))).
Proof.
  intros H; destruct a as [ | | | payload | cid q | cid | | | ]; simpl; auto.
  - unfold findIndex; rewrite findIndex_from_found by lia.
    destruct (existsb _ (cartItems s)) eqn:Hex.
    + unfold mapi; rewrite mapi_from_keeps; [exact H|].
      intros x j; destruct (j =? _); reflexivity.
    + rewrite map_app; simpl; apply NoDup_snoc; [exact H|].
      intros Hin; apply in_map_iff in Hin; destruct Hin as [x [Hx Hin]].
      assert (Htrue : existsb (fun item =>
                         (product_id item =? product_id payload)%string)
                        (cartItems s) = true).
      { apply existsb_exists; exists x; split; [exact Hin|].
        apply String.eqb_eq, Hx. }
      rewrite Htrue in Hex; discriminate.
  - rewrite map_map.
    erewrite map_ext; [exact H|].
    intros x; simpl; destruct (id x =? cid)%string; reflexivity.
  - apply NoDup_map_filter, H.
  - constructor.
Qed.

(** X1. In every state reached from the initial one, by any sequence of
    actions, the cart has at most one line per product: the [product_id]s
    of the lines are pairwise distinct. *)
Theorem cart_has_one_line_per_product :
  forall (actions : list AppAction),
    NoDup (map product_id (cartItems (dispatch_all initialState actions))).
Proof.
  intros actions; unfold dispatch_all.
  assert (H : forall s, NoDup (map product_id (cartItems s)) ->
                        NoDup (map product_id
                                 (cartItems (fold_left appReducer actions s)))).
  { induction actions as [|a r IH]; intros s Hs; simpl.
    - exact Hs.
    - apply IH, appReducer_keeps_products_distinct, Hs. }
  apply H; constructor.
Qed.

(** *** Removing and updating lines *)

Lemma filter_twice {A : Type} (p : A -> bool) (l : list A) :
  filter p (filter p l) = filter p l.
Proof.
  induction l as [|x l IH]; [reflexivity|]; cbn [filter].
  destruct (p x) eqn:Hx; [|exact IH].
  cbn [filter]; rewrite Hx, IH; reflexivity.
Qed.

Lemma filter_swap {A : Type} (p q : A -> bool) (l : list A) :
  filter p (filter q l) = filter q (filter p l).
Proof.
  induction l as [|x l IH]; [reflexivity|]; cbn [filter].
  destruct (q x) eqn:Hq; destruct (p x) eqn:Hp; cbn [filter];
    rewrite ?Hq, ?Hp, IH; reflexivity.
Qed.

(** X2. REMOVE_FROM_CART, from any state: the lines left are exactly the
    lines of another id, and [cartTotal] is the reducer's sum over them;
    removing the same id once more changes nothing, and two removals give
    the same state in either order. *)
Theorem remove_is_idempotent_and_commutes :
  forall (s : AppState) (cid cid' : string),
    let s' := appReducer s (REMOVE_FROM_CART cid) in
    (forall item, In item (cartItems s') <->
                  In item (cartItems s) /\ id item <> cid) /\
    cartTotal s' = sum_total_price (cartItems s') /\
    appReducer s' (REMOVE_FROM_CART cid) = s' /\
    appReducer s' (REMOVE_FROM_CART cid')
    = appReducer (appReducer s (REMOVE_FROM_CART cid'))
                 (REMOVE_FROM_CART cid).
Proof.
  intros s cid cid' s'; split; [|split; [|split]].
  - intros item; cbn [s' appReducer with_cart cartItems].
    rewrite filter_In, negb_true_iff, String.eqb_neq; reflexivity.
  - reflexivity.
  - unfold s'; cbn [appReducer with_cart cartItems].
    rewrite filter_twice; reflexivity.
  - unfold s'; cbn [appReducer with_cart cartItems].
    rewrite (filter_swap (fun item => negb (id item =? cid')%string)
                         (fun item => negb (id item =? cid)%string)).
    reflexivity.
Qed.

Lemma with_cart_same (s : AppState) :
  cart_consistent s ->
  with_cart s (cartItems s) (sum_total_price (cartItems s)) = s.
Proof.
  unfold cart_consistent; intros H.
  rewrite sum_total_price_is_sum, <- H; destruct s; reflexivity.
Qed.

(** X3. In a reachable state, updating or removing an id that no cart line
    has leaves the whole state as it is. *)
Theorem unknown_line_id_changes_nothing :
  forall (actions : list AppAction) (cid : string) (q : Z),
    let s := dispatch_all initialState actions in
    (forall item, In item (cartItems s) -> id item <> cid) ->
    appReducer s (UPDATE_CART_ITEM cid q) = s /\
    appReducer s (REMOVE_FROM_CART cid) = s.
Proof.
  intros actions cid q s Habsent.
  assert (Hs : cart_consistent s)
    by (apply dispatch_all_consistent; reflexivity).
  split; simpl.
  - rewrite map_untouched; [apply with_cart_same, Hs|].
    intros x Hx; apply Habsent, String.eqb_neq in Hx; rewrite Hx; reflexivity.
  - rewrite filter_all; [apply with_cart_same, Hs|].
    intros x Hx; apply Habsent, String.eqb_neq in Hx; rewrite Hx; reflexivity.
Qed.

Lemma unknown_line_id_changes_nothing_witness :
  let line := {| id := "cart_1"; product_id := "prod_001";
                 product_name := "Headphones"; quantity := 2;
                 unit_price := 1000; total_price := 2000 |} in
  let s := dispatch_all initialState [ADD_TO_CART line] in
  (forall item, In item (cartItems s) -> id item <> "cart_9") /\
  appReducer s (UPDATE_CART_ITEM "cart_9" 5) = s /\
  appReducer s (REMOVE_FROM_CART "cart_9") = s.
Proof.
  cbv zeta.
  assert (H : forall item,
             In item (cartItems
                        (dispatch_all initialState
                           [ADD_TO_CART
                              {| id := "cart_1"; product_id := "prod_001";
                                 product_name := "Headphones"; quantity := 2;
                                 unit_price := 1000; total_price := 2000 |}])) ->
             id item <> "cart_9").
  { intros item [Heq | []]; subst item; discriminate. }
  split; [exact H|].
  exact (unknown_line_id_changes_nothing
           [ADD_TO_CART {| id := "cart_1"; product_id := "prod_001";
                           product_name := "Headphones"; quantity := 2;
                           unit_price := 1000; total_price := 2000 |}]
           "cart_9" 5 H).
Defined.

(** *** Search history *)

Lemma history_after (s : AppState) (q : string) :
  searchHistory (appReducer s (ADD_SEARCH_QUERY q))
  = slice0 10 (q :: filter (fun q' => negb (q' =? q)%string)
                           (searchHistory s)).
Proof. reflexivity. Qed.

Lemma others_pass_filter (q : string) (l : list string) :
  ~ In q l ->
  forall x, In x l -> negb (x =? q)%string = true.
Proof.
  intros Hq x Hx; apply negb_true_iff, String.eqb_neq.
  intros Heq; subst x; contradiction.
Qed.

(** X4. When the queries dispatched are pairwise distinct, the history is
    exactly the last ten of them, most recent first. *)
Theorem distinct_queries_keep_last_ten :
  forall (queries : list string),
    NoDup queries ->
    searchHistory (dispatch_all initialState (map ADD_SEARCH_QUERY queries))
    = firstn 10 (rev queries).
Proof.
  induction queries as [|q queries IH] using rev_ind; intros Hnodup.
  - reflexivity.
  - assert (Hq : ~ In q queries /\ NoDup queries).
    { apply NoDup_remove in Hnodup; rewrite app_nil_r in Hnodup; tauto. }
    destruct Hq as [Hq Hrest].
    rewrite map_app; simpl map; rewrite dispatch_all_snoc, history_after.
    rewrite (IH Hrest), rev_app_distr; simpl rev; simpl app.
    unfold slice0.
    rewrite (firstn_filter_all (fun q' => negb (q' =? q)%string) 10
               (rev queries))
      by (apply others_pass_filter; intros Hin; apply Hq, in_rev, Hin).
    rewrite !firstn_cons, firstn_firstn; reflexivity.
Qed.

Lemma distinct_queries_keep_last_ten_witness :
  NoDup ["a"; "b"; "c"; "d"; "e"; "f"; "g"; "h"; "i"; "j"; "k"; "l"] /\
  searchHistory
    (dispatch_all initialState
       (map ADD_SEARCH_QUERY
            ["a"; "b"; "c"; "d"; "e"; "f"; "g"; "h"; "i"; "j"; "k"; "l"]))
  = ["l"; "k"; "j"; "i"; "h"; "g"; "f"; "e"; "d"; "c"].
Proof.
  assert (H : NoDup ["a"; "b"; "c"; "d"; "e"; "f"; "g"; "h"; "i"; "j"; "k";
                     "l"]).
  { repeat (constructor;
            [simpl; intros Hin;
             repeat (destruct Hin as [Hin | Hin]; [discriminate Hin|]);
             exact Hin|]).
    constructor. }
  split; [exact H|].
  exact (distinct_queries_keep_last_ten _ H).
Defined.

(** X5. Dispatching the same search query twice in a row gives the same
    state as dispatching it once, from any state. *)
Theorem repeated_query_is_idempotent :
  forall (s : AppState) (q : string),
    appReducer (appReducer s (ADD_SEARCH_QUERY q)) (ADD_SEARCH_QUERY q)
    = appReducer s (ADD_SEARCH_QUERY q).
Proof.
  intros s q.
  assert (Hh : searchHistory
                 (appReducer (appReducer s (ADD_SEARCH_QUERY q))
                             (ADD_SEARCH_QUERY q))
               = searchHistory (appReducer s (ADD_SEARCH_QUERY q))).
  { rewrite !history_after; unfold slice0.
    set (F := filter (fun q' => negb (q' =? q)%string) (searchHistory s)).
    rewrite (firstn_cons 9 q F); cbn [filter].
    rewrite String.eqb_refl; cbn [negb].
    rewrite (firstn_filter_all (fun q' => negb (q' =? q)%string) 9 F).
    - rewrite firstn_cons, firstn_firstn; reflexivity.
    - intros x Hx; apply filter_In in Hx; tauto. }
  change (appReducer (appReducer s (ADD_SEARCH_QUERY q)) (ADD_SEARCH_QUERY q))
    with (with_searchHistory (appReducer s (ADD_SEARCH_QUERY q))
            (searchHistory
               (appReducer (appReducer s (ADD_SEARCH_QUERY q))
                           (ADD_SEARCH_QUERY q)))).
  rewrite Hh; reflexivity.
Qed.

(** *** What each kind of action leaves alone *)

Lemma appReducer_frame (s : AppState) (a : AppAction) :
  let s' := appReducer s a in
  if is_cart_mutation a
  then sessionId s' = sessionId s /\ searchResults s' = searchResults s /\
       searchHistory s' = searchHistory s /\ isLoading s' = isLoading s /\
       error s' = error s
  else cartItems s' = cartItems s /\ cartTotal s' = cartTotal s.
Proof. destruct a; simpl; repeat split. Qed.

(** X6. The cart is changed by the four cart mutations only: any sequence
    of the other actions leaves [cartItems] and [cartTotal] as they were;
    and any sequence of cart mutations leaves the session id, the search
    results and history, the loading flag and the error as they were. *)
Theorem cart_and_session_are_independent :
  forall (s : AppState) (others mutations : list AppAction),
    Forall (fun a => is_cart_mutation a = false) others ->
    Forall (fun a => is_cart_mutation a = true) mutations ->
    (cartItems (dispatch_all s others) = cartItems s /\
     cartTotal (dispatch_all s others) = cartTotal s) /\
    (sessionId (dispatch_all s mutations) = sessionId s /\
     searchResults (dispatch_all s mutations) = searchResults s /\
     searchHistory (dispatch_all s mutations) = searchHistory s /\
     isLoading (dispatch_all s mutations) = isLoading s /\
     error (dispatch_all s mutations) = error s).
Proof.
  intros s others mutations Hothers Hmutations; split.
  - revert s; induction Hothers as [|a r Ha _ IH]; intros s; simpl.
    + split; reflexivity.
    + pose proof (appReducer_frame s a) as Hf; cbv zeta in Hf.
      rewrite Ha in Hf; destruct Hf as [Hi Ht].
      destruct (IH (appReducer s a)) as [Hi' Ht'].
      unfold dispatch_all in *; rewrite Hi', Ht'; auto.
  - revert s; induction Hmutations as [|a r Ha _ IH]; intros s; simpl.
    + repeat split.
    + pose proof (appReducer_frame s a) as Hf; cbv zeta in Hf.
      rewrite Ha in Hf; destruct Hf as [H1 [H2 [H3 [H4 H5]]]].
      destruct (IH (appReducer s a)) as [H1' [H2' [H3' [H4' H5']]]].
      unfold dispatch_all in *.
      rewrite H1', H2', H3', H4', H5'; auto.
Qed.

Lemma cart_and_session_are_independent_witness :
  let line := {| id := "cart_1"; product_id := "prod_001";
                 product_name := "Headphones"; quantity := 2;
                 unit_price := 1000; total_price := 2000 |} in
  let s := dispatch_all initialState
             [ADD_TO_CART line; ADD_SEARCH_QUERY "headphones"] in
  let others := [ADD_SEARCH_QUERY "mouse"; SET_ERROR (Some "oops");
                 SET_SESSION_ID "sess_1"] in
  let mutations := [UPDATE_CART_ITEM "cart_1" 3; CLEAR_CART] in
  Forall (fun a => is_cart_mutation a = false) others /\
  Forall (fun a => is_cart_mutation a = true) mutations /\
  cartItems (dispatch_all s others) = [line] /\
  searchHistory (dispatch_all s mutations) = ["headphones"].
Proof.
  cbv zeta.
  assert (Ho : Forall (fun a => is_cart_mutation a = false)
                 [ADD_SEARCH_QUERY "mouse"; SET_ERROR (Some "oops");
                  SET_SESSION_ID "sess_1"])
    by (repeat constructor).
  assert (Hm : Forall (fun a => is_cart_mutation a = true)
                 [UPDATE_CART_ITEM "cart_1" 3; CLEAR_CART])
    by (repeat constructor).
  split; [exact Ho|]; split; [exact Hm|].
  destruct (cart_and_session_are_independent
              (dispatch_all initialState
                 [ADD_TO_CART {| id := "cart_1"; product_id := "prod_001";
                                 product_name := "Headphones"; quantity := 2;
                                 unit_price := 1000; total_price := 2000 |};
                  ADD_SEARCH_QUERY "headphones"])
              _ _ Ho Hm) as [[Hitems _] [_ [_ [Hhistory _]]]].
  split; [exact Hitems | exact Hhistory].
Defined.

(** *** Creating and restoring a session *)

(** X7. [createSession] issues exactly one POST, always ends with the
    loading flag cleared and never touches the cart.  On success the fresh
    id becomes both the active session and the stored id, with no error; a
    non-OK response changes neither and reports nothing; a network failure
    or an unreadable body changes neither and sets the error 'Failed to
    create session'. *)
Theorem createSession_outcomes :
  forall (srv : Server) (e : Env),
    let e' := exec (createSession srv) e in
    requests e' = requests e ++ [POST_sessions] /\
    isLoading (state e') = false /\
    cartItems (state e') = cartItems (state e) /\
    cartTotal (state e') = cartTotal (state e) /\
    match post_sessions srv with
    | Resolved _ true (Some session_id) =>
        sessionId (state e') = Some session_id /\
        localStorage e' = Some session_id /\
        error (state e') = None
    | Resolved _ false _ =>
        sessionId (state e') = sessionId (state e) /\
        localStorage e' = localStorage e /\
        error (state e') = None
    | Resolved _ true None | Rejected =>
        sessionId (state e') = sessionId (state e) /\
        localStorage e' = localStorage e /\
        error (state e') = Some "Failed to create session"
    end.
Proof.
  intros srv e e'; unfold e', exec, createSession, bind, fetch, dispatch.
  simpl.
  destruct (post_sessions srv) as [|status [|] [sid|]]; repeat split.
Qed.

Lemma validateOrCreate_without_saved (srv : Server) (e : Env) :
  no_saved_session (localStorage e) = true ->
  exec (validateOrCreate srv) e = exec (createSession srv) e.
Proof.
  intros H; unfold exec, validateOrCreate, bind, localStorage_getItem.
  destruct (localStorage e) as [saved|]; [|reflexivity].
  rewrite H; reflexivity.
Qed.

(** X9. The mount effect never retries: it issues one POST when there is
    no saved id (null or empty), and otherwise one GET for the saved id,
    followed by at most one POST. *)
Theorem mount_issues_at_most_two_requests :
  forall (srv : Server) (e : Env),
    let e' := exec (validateOrCreate srv) e in
    (no_saved_session (localStorage e) = true /\
     requests e' = requests e ++ [POST_sessions]) \/
    (exists saved,
        localStorage e = Some saved /\ saved <> "" /\
        (requests e' = requests e ++ [GET_context saved] \/
         requests e' = requests e ++ [GET_context saved; POST_sessions])).
Proof.
  intros srv e e'.
  destruct (no_saved_session (localStorage e)) eqn:Hnone.
  - left; split; [reflexivity|].
    unfold e'; rewrite validateOrCreate_without_saved by exact Hnone.
    apply createSession_requests.
  - right; destruct (localStorage e) as [saved|] eqn:Hsaved; [|discriminate].
    simpl in Hnone; apply String.eqb_neq in Hnone.
    exists saved; split; [reflexivity|]; split; [exact Hnone|].
    unfold e'; rewrite (validateOrCreate_cases srv e saved Hsaved Hnone).
    assert (Hpost : requests (exec (createSession srv) (dropped saved e))
                    = requests e ++ [GET_context saved; POST_sessions]).
    { rewrite createSession_requests; simpl.
      rewrite <- app_assoc; reflexivity. }
    destruct (get_context srv saved) as [|status ok body]; [right; exact Hpost|].
    destruct ((status =? 404) || (status =? 410) || negb ok);
      [right; exact Hpost | left; reflexivity].
Qed.

End AppStateMoreFacts.

(** ** The session at a reload *)

Module MountFacts.
Import AppStateContext Mount.

(** The effects cut at their [await]s are the effects of the provider. *)
Lemma createSession_in_two_steps (srv : Server) (e : Env) :
  createSession srv e
  = (createSession_begin ;; createSession_settle (post_sessions srv)) e.
Proof.
  unfold createSession, createSession_begin, createSession_settle, bind,
    fetch, request, dispatch; cbn.
  destruct (post_sessions srv) as [|status [|] [sid|]]; reflexivity.
Qed.

Lemma validateOrCreate_in_steps (srv : Server) (e : Env) :
  validateOrCreate srv e = validateOrCreate_at_once srv e.
Proof.
  unfold validateOrCreate, validateOrCreate_at_once, validateOrCreate_begin,
    validateOrCreate_settle, createSession, createSession_begin,
    createSession_settle, bind, localStorage_getItem, fetch, request.
  destruct (localStorage e) as [saved|]; cbn.
  - destruct (saved =? "")%string; cbn.
    + destruct (post_sessions srv) as [|status [|] [sid|]]; reflexivity.
    + destruct (get_context srv saved) as [|status ok body]; cbn.
      * destruct (post_sessions srv) as [|status [|] [sid|]]; reflexivity.
      * destruct ((status =? 404) || (status =? 410)); cbn;
          [|destruct ok; cbn; [reflexivity|]];
          destruct (post_sessions srv) as [|status' [|] [sid|]]; reflexivity.
  - destruct (post_sessions srv) as [|status [|] [sid|]]; reflexivity.
Qed.

(** X8. A reload with a stored session id.  [ChatInterface] mounts with a
    null [sessionId] and POSTs a new session while the provider asks for
    the context of the stored one.  When both requests succeed, no other
    request is made and [localStorage] ends up holding the new id,
    whichever response arrives first: the stored id is replaced.  The
    active session is the stored id when the POST is answered first, and
    the new id when the GET is answered first.  [ChatInterface]'s effect,
    run again after these changes of [sessionId], does nothing. *)
Theorem reload_replaces_the_stored_session :
  forall (e : Env) (saved fresh : string) (status status' : Z),
    localStorage e = Some saved -> saved <> "" -> fresh <> "" ->
    sessionId (state e) = None ->
    status <> 404 -> status <> 410 ->
    let context_ok := Resolved status true tt in
    let created := Resolved status' true (Some fresh) in
    let started := exec mount_effects e in
    let post_first :=
      exec (createSession_settle created ;;
            validateOrCreate_settle saved context_ok) started in
    let get_first :=
      exec (validateOrCreate_settle saved context_ok ;;
            createSession_settle created) started in
    fst (mount_effects e) = (true, Awaits_GET saved) /\
    requests started = requests e ++ [POST_sessions; GET_context saved] /\
    requests post_first = requests started /\
    requests get_first = requests started /\
    localStorage post_first = Some fresh /\
    localStorage get_first = Some fresh /\
    sessionId (state post_first) = Some saved /\
    sessionId (state get_first) = Some fresh /\
    fst (ChatInterface_effect post_first) = false /\
    fst (ChatInterface_effect get_first) = false.
Proof.
  intros e saved fresh status status' Hsaved Hne Hfresh Hnull H404 H410
    context_ok created started post_first get_first.
  apply String.eqb_neq in Hne; apply String.eqb_neq in Hfresh.
  apply Z.eqb_neq in H404; apply Z.eqb_neq in H410.
  unfold post_first, get_first, started, exec, mount_effects,
    ChatInterface_effect, validateOrCreate_begin, validateOrCreate_settle,
    createSession_settle, createSession_begin, context_ok, created,
    read_sessionId, localStorage_getItem, localStorage_setItem, request,
    dispatch, bind, ret.
  cbn; rewrite Hnull; cbn; rewrite Hsaved; cbn.
  rewrite Hne, H404, H410; cbn.
  rewrite Hne, Hfresh, <- app_assoc; repeat split.
Qed.

Lemma reload_replaces_the_stored_session_witness :
  let e := {| localStorage := Some "sess_old"; state := initialState;
              requests := [] |} in
  let started := exec mount_effects e in
  let post_first :=
    exec (createSession_settle (Resolved 201 true (Some "sess_new")) ;;
          validateOrCreate_settle "sess_old" (Resolved 200 true tt))
         started in
  let get_first :=
    exec (validateOrCreate_settle "sess_old" (Resolved 200 true tt) ;;
          createSession_settle (Resolved 201 true (Some "sess_new")))
         started in
  localStorage e = Some "sess_old" /\ "sess_old" <> "" /\ "sess_new" <> "" /\
  sessionId (state e) = None /\ 200 <> 404 /\ 200 <> 410 /\
  requests started = [POST_sessions; GET_context "sess_old"] /\
  localStorage post_first = Some "sess_new" /\
  localStorage get_first = Some "sess_new" /\
  sessionId (state post_first) = Some "sess_old" /\
  sessionId (state get_first) = Some "sess_new".
Proof.
  cbv zeta.
  assert (Hold : "sess_old" <> "") by discriminate.
  assert (Hnew : "sess_new" <> "") by discriminate.
  assert (H404 : 200 <> 404) by discriminate.
  assert (H410 : 200 <> 410) by discriminate.
  destruct (reload_replaces_the_stored_session
              {| localStorage := Some "sess_old"; state := initialState;
                 requests := [] |}
              "sess_old" "sess_new" 200 201 eq_refl Hold Hnew eq_refl
              H404 H410)
    as [_ [Hreq [_ [_ [Hls1 [Hls2 [Hsid1 [Hsid2 _]]]]]]]].
  repeat split; try assumption.
Defined.

End MountFacts.

(** ** More on the streaming hook *)

Module UseSSEConnectionMoreFacts.
Import JsArray JsArrayFacts UseSSEConnection UseSSEConnectionFacts.
Import UseSSEConnectionApi.

Lemma run_cons (o : SSEConnectionOptions) (s : HookState) (e : Event)
  (tr : list Event) :
  run o s (e :: tr) = run o (step o s e) tr.
Proof. reflexivity. Qed.

(** *** Messages and the connection life cycle *)

Lemma connect_keeps_chat (o : SSEConnectionOptions) (s : HookState) :
  messages (connect o s) = messages s /\
  isTyping (connect o s) = isTyping s /\
  pendingTimers (connect o s) = pendingTimers s.
Proof.
  unfold connect; destruct (sessionId o =? "")%string; repeat split.
Qed.

Lemma onerror_keeps_chat (o : SSEConnectionOptions) (s : HookState) :
  messages (onerror o s) = messages s /\ isTyping (onerror o s) = isTyping s.
Proof.
  unfold onerror; simpl.
  destruct (Z.of_nat (reconnectAttempts s) <? maxReconnectAttempts o);
    split; reflexivity.
Qed.

Lemma connection_event_keeps_chat (o : SSEConnectionOptions) (s : HookState)
  (e : Event) :
  is_connection_event e = true ->
  messages (step o s e) = messages s /\ isTyping (step o s e) = isTyping s.
Proof.
  destruct e as [ | now payload | | i | | now data | now data | | ];
    simpl; intros He; try discriminate He.
  - split; reflexivity.
  - destruct payload; try discriminate He; simpl;
      [apply onerror_keeps_chat | split; reflexivity].
  - apply onerror_keeps_chat.
  - destruct (nth_error (pendingTimers s) i); [|split; reflexivity].
    unfold reconnect_timer_callback.
    destruct (connect_keeps_chat o
                (set_reconnectAttempts
                   (S (reconnectAttempts
                         (set_pendingTimers (remove_nth i (pendingTimers s)) s)))
                   (set_pendingTimers (remove_nth i (pendingTimers s)) s)))
      as [Hm [Ht _]].
    rewrite Hm, Ht; split; reflexivity.
  - unfold reconnect.
    destruct (connect_keeps_chat o (set_reconnectAttempts 0 s)) as [Hm [Ht _]].
    rewrite Hm, Ht; split; reflexivity.
Qed.

(** X10. Opening, failing, retrying and manually reconnecting never touch
    the chat: along any sequence of connection events the message list and
    the typing flag stay as they were. *)
Theorem reconnection_keeps_messages :
  forall (o : SSEConnectionOptions) (tr : list Event) (s : HookState),
    Forall (fun e => is_connection_event e = true) tr ->
    messages (run o s tr) = messages s /\
    isTyping (run o s tr) = isTyping s.
Proof.
  intros o tr; induction tr as [|e tr IH]; intros s Hall.
  - split; reflexivity.
  - inversion Hall as [|e' tr' He Hrest]; subst.
    rewrite run_cons.
    destruct (IH (step o s e) Hrest) as [Hm Ht].
    destruct (connection_event_keeps_chat o s e He) as [Hm' Ht'].
    rewrite Hm, Ht, Hm', Ht'; split; reflexivity.
Qed.

Lemma reconnection_keeps_messages_witness :
  let o := default_options "sess_1" in
  let s := handleTextChunk 10 (final_chunk "Hello") initial in
  let tr := [EvOnError; EvTimer 0; EvErrorListener 20 NoData; EvReconnect;
             EvOpen] in
  Forall (fun e => is_connection_event e = true) tr /\
  messages (run o s tr) = [assistant_message 10 "Hello"] /\
  isTyping (run o s tr) = true.
Proof.
  cbv zeta.
  assert (H : Forall (fun e => is_connection_event e = true)
                [EvOnError; EvTimer 0; EvErrorListener 20 NoData; EvReconnect;
                 EvOpen])
    by (repeat constructor).
  split; [exact H|].
  exact (reconnection_keeps_messages (default_options "sess_1") _
           (handleTextChunk 10 (final_chunk "Hello") initial) H).
Defined.

Lemma removelast_snoc {A : Type} (l : list A) (x : A) :
  removelast (l ++ [x]) = l.
Proof. rewrite removelast_app by discriminate; simpl; apply app_nil_r. Qed.

Lemma split_last {A : Type} (l : list A) :
  l = [] \/ exists init x, l = init ++ [x].
Proof.
  destruct l as [|x0 l0] using rev_ind; [left; reflexivity|].
  right; do 2 eexists; reflexivity.
Qed.

Lemma handleTextChunk_messages (now : Z) (data : TextChunk) (s : HookState) :
  messages (handleTextChunk now data s)
  = if chunk_partial data
    then extend_last now (chunk_content data) (messages s)
    else messages s ++ [assistant_message now (chunk_content data)].
Proof. unfold handleTextChunk; destruct (chunk_partial data); reflexivity. Qed.

Lemma step_chunk_messages (o : SSEConnectionOptions) (s : HookState) (now : Z)
  (data : TextChunk) :
  messages (step o s (EvTextChunk now data))
  = if chunk_partial data
    then extend_last now (chunk_content data) (messages s)
    else messages s ++ [assistant_message now (chunk_content data)].
Proof. apply handleTextChunk_messages. Qed.

(** What one event other than [clearMessages] does to the list: nothing,
    one message more, or a rewritten last message. *)
Lemma step_messages (o : SSEConnectionOptions) (s : HookState) (e : Event) :
  is_clear e = false ->
  messages (step o s e) = messages s \/
  (exists x, messages (step o s e) = messages s ++ [x]) \/
  (exists init m m', messages s = init ++ [m] /\
                     messages (step o s e) = init ++ [m']).
Proof.
  destruct e as [ | now payload | | i | | now data | now data | | ];
    intros Hclear; try discriminate Hclear.
  - left; reflexivity.
  - destruct payload as [ | | data_error]; simpl.
    + left; apply onerror_keeps_chat.
    + left; reflexivity.
    + right; left; eexists; reflexivity.
  - left; apply onerror_keeps_chat.
  - left; apply (connection_event_keeps_chat o s (EvTimer i)); reflexivity.
  - left; apply (connection_event_keeps_chat o s EvReconnect); reflexivity.
  - change (step o s (EvTextChunk now data)) with (handleTextChunk now data s).
    rewrite handleTextChunk_messages.
    destruct (chunk_partial data).
    + destruct (split_last (messages s)) as [Hnil | [init [m Hm]]].
      * rewrite Hnil; right; left; eexists; reflexivity.
      * rewrite Hm, extend_last_snoc.
        destruct (is_assistant m).
        -- right; right; do 3 eexists; split; reflexivity.
        -- right; left; eexists; reflexivity.
    + right; left; eexists; reflexivity.
  - right; left; eexists; reflexivity.
  - left; reflexivity.
Qed.

(** The shape kept along a trace: the earlier messages but the last, then
    at least as many messages as that last one. *)
Lemma step_keeps_prefix (o : SSEConnectionOptions) (s : HookState) (e : Event) :
  is_clear e = false ->
  exists rest,
    messages (step o s e) = removelast (messages s) ++ rest /\
    (messages s <> [] -> rest <> []).
Proof.
  intros Hclear.
  destruct (step_messages o s e Hclear)
    as [Hsame | [[x Hadd] | [init [m [m' [Hs Hnew]]]]]].
  - rewrite Hsame; destruct (split_last (messages s)) as [Hnil | [init [x Hx]]].
    + rewrite Hnil; exists []; split; [reflexivity | intros H; contradiction].
    + rewrite Hx, removelast_snoc; exists [x]; split;
        [reflexivity | discriminate].
  - rewrite Hadd; destruct (split_last (messages s)) as [Hnil | [init [y Hy]]].
    + rewrite Hnil; exists [x]; split; [reflexivity | discriminate].
    + rewrite Hy, removelast_snoc, <- app_assoc; exists ([y] ++ [x]); split;
        [reflexivity | discriminate].
  - rewrite Hnew, Hs, removelast_snoc; exists [m']; split;
      [reflexivity | discriminate].
Qed.

(** X11. As long as [clearMessages] is not called, the hook never drops a
    message and rewrites none but the last: after any sequence of other
    events, the messages of the earlier state, its last one excepted, are
    still there at the same positions, and the list is at least as long. *)
Theorem messages_are_only_appended :
  forall (o : SSEConnectionOptions) (tr : list Event) (s : HookState),
    Forall (fun e => is_clear e = false) tr ->
    exists rest,
      messages (run o s tr) = removelast (messages s) ++ rest /\
      (List.length (messages s) <= List.length (messages (run o s tr)))%nat.
Proof.
  intros o tr.
  assert (H : forall s, Forall (fun e => is_clear e = false) tr ->
                        exists rest,
                          messages (run o s tr) = removelast (messages s) ++ rest
                          /\ (messages s <> [] -> rest <> [])).
  { induction tr as [|e tr IH]; intros s Hall.
    - destruct (split_last (messages s)) as [Hnil | [init [x Hx]]].
      + exists []; simpl; rewrite Hnil; split;
          [reflexivity | intros H; contradiction].
      + exists [x]; simpl; rewrite Hx, removelast_snoc; split;
          [reflexivity | discriminate].
    - inversion Hall as [|e' tr' He Hrest]; subst.
      rewrite run_cons.
      destruct (IH (step o s e) Hrest) as [rest [Hrun Hne]].
      destruct (step_keeps_prefix o s e He) as [rest1 [Hstep Hne1]].
      destruct (split_last (messages s)) as [Hnil | [init [x Hx]]].
      + rewrite Hnil; simpl; exists (messages (run o (step o s e) tr)); split;
          [reflexivity | intros H; contradiction].
      + assert (Hrest1 : rest1 <> []) by (apply Hne1; rewrite Hx;
                                          destruct init; discriminate).
        rewrite Hstep in Hrun, Hne.
        rewrite removelast_app in Hrun by exact Hrest1.
        rewrite <- app_assoc in Hrun.
        exists (removelast rest1 ++ rest); split; [exact Hrun|].
        intros _ Hempty; apply app_eq_nil in Hempty; destruct Hempty as [_ Hr].
        apply Hne; [|exact Hr].
        destruct (removelast (messages s)); destruct rest1;
          try discriminate; contradiction. }
  intros s Hall; destruct (H s Hall) as [rest [Hrun Hne]].
  exists rest; split; [exact Hrun|].
  rewrite Hrun, length_app.
  destruct (split_last (messages s)) as [Hnil | [init [x Hx]]].
  - rewrite Hnil; simpl; lia.
  - rewrite Hx, removelast_snoc, length_app; simpl.
    assert (Hr : rest <> []) by (apply Hne; rewrite Hx; destruct init;
                                 discriminate).
    destruct rest; [contradiction | simpl; lia].
Qed.

Lemma messages_are_only_appended_witness :
  let o := default_options "sess_1" in
  let s := handleTextChunk 10 (final_chunk "Hello") initial in
  let tr := [EvTextChunk 20 (partial_chunk " world"); EvOnError] in
  Forall (fun e => is_clear e = false) tr /\
  exists rest,
    messages (run o s tr) = removelast (messages s) ++ rest /\
    (List.length (messages s) <= List.length (messages (run o s tr)))%nat.
Proof.
  cbv zeta.
  assert (H : Forall (fun e => is_clear e = false)
                [EvTextChunk 20 (partial_chunk " world"); EvOnError])
    by (repeat constructor).
  split; [exact H|].
  exact (messages_are_only_appended (default_options "sess_1") _
           (handleTextChunk 10 (final_chunk "Hello") initial) H).
Defined.

(** *** Streaming an answer *)

Lemma append_content_twice (m : Message) (a b : string) :
  append_content (append_content m a) b = append_content m (a ++ b)%string.
Proof.
  unfold append_content; simpl; f_equal.
  induction (content m) as [|c r IH]; simpl; [reflexivity|].
  rewrite IH; reflexivity.
Qed.

Lemma append_content_nothing (m : Message) : append_content m "" = m.
Proof.
  unfold append_content; destruct m as [i t c ts f]; simpl; f_equal.
  induction c as [|ch r IH]; simpl; [reflexivity | rewrite IH; reflexivity].
Qed.

Lemma partial_chunks_extend (o : SSEConnectionOptions)
  (chunks : list (Z * string)) :
  forall (s : HookState) (init : list Message) (m : Message),
    messages s = init ++ [m] -> is_assistant m = true ->
    messages (run o s (partial_events chunks))
    = init ++ [append_content m (joined chunks)].
Proof.
  induction chunks as [|[now text] chunks IH]; intros s init m Hs Hm.
  - simpl; rewrite append_content_nothing; exact Hs.
  - simpl partial_events; rewrite run_cons.
    rewrite (IH _ init (append_content m text)).
    + rewrite append_content_twice; reflexivity.
    + rewrite step_chunk_messages; simpl.
      rewrite Hs, extend_last_snoc, Hm; reflexivity.
    + exact Hm.
Qed.

(** X12. Partial chunks accumulate: when the last message is not an
    assistant message (or there is none), a run of partial chunks adds one
    assistant message, created by the first chunk, whose content is the
    texts of all the chunks in order. *)
Theorem partial_chunks_build_one_message :
  forall (o : SSEConnectionOptions) (s : HookState) (now : Z) (text : string)
         (chunks : list (Z * string)),
    last_is_not_assistant (messages s) ->
    messages (run o s (partial_events ((now, text) :: chunks)))
    = messages s
      ++ [ {| id := stamped "msg_" now; type := T_assistant;
              content := (text ++ joined chunks)%string;
              timestamp := now; function_call := None |} ].
Proof.
  intros o s now text chunks Hlast.
  simpl partial_events; rewrite run_cons.
  rewrite (partial_chunks_extend o chunks _ (messages s)
             (assistant_message now text)); [reflexivity | | reflexivity].
  rewrite step_chunk_messages; simpl.
  unfold last_is_not_assistant in Hlast; unfold extend_last.
  destruct (last_elem (messages s)) as [m|]; [rewrite Hlast|]; reflexivity.
Qed.

Lemma partial_chunks_build_one_message_witness :
  let o := default_options "sess_1" in
  let s := UseSSEConnectionApi.sendMessage_begin 5 "find headphones" initial in
  last_is_not_assistant (messages s) /\
  messages (run o s (partial_events [(10, "I found "); (11, "three ");
                                     (12, "products")]))
  = [ UseSSEConnectionApi.user_message 5 "find headphones";
      {| id := stamped "msg_" 10; type := T_assistant;
         content := "I found three products";
         timestamp := 10; function_call := None |} ].
Proof.
  cbv zeta.
  assert (H : last_is_not_assistant
                (messages (UseSSEConnectionApi.sendMessage_begin 5
                             "find headphones" initial)))
    by reflexivity.
  split; [exact H|].
  exact (partial_chunks_build_one_message (default_options "sess_1") _ 10
           "I found " [(11, "three "); (12, "products")] H).
Defined.

(** *** Connections and timers *)

Lemma connect_eventSources (o : SSEConnectionOptions) (s : HookState) :
  eventSources (connect o s)
  = (eventSources s + (if (sessionId o =? "")%string then 0 else 1))%nat.
Proof.
  unfold connect; destruct (sessionId o =? "")%string; simpl; lia.
Qed.

Lemma onerror_eventSources (o : SSEConnectionOptions) (s : HookState) :
  eventSources (onerror o s) = eventSources s.
Proof.
  unfold onerror; simpl.
  destruct (Z.of_nat (reconnectAttempts s) <? maxReconnectAttempts o);
    reflexivity.
Qed.

Lemma step_eventSources (o : SSEConnectionOptions) (s : HookState) (e : Event) :
  eventSources (step o s e)
  = (eventSources s
     + (if is_attempt s e || is_reconnect e
        then (if (sessionId o =? "")%string then 0 else 1)
        else 0))%nat.
Proof.
  destruct e as [ | now payload | | i | | now data | now data | | ]; simpl;
    try lia.
  - destruct payload; simpl; rewrite ?onerror_eventSources; lia.
  - rewrite onerror_eventSources; lia.
  - destruct (nth_error (pendingTimers s) i); simpl; [|lia].
    unfold reconnect_timer_callback; rewrite connect_eventSources; reflexivity.
  - unfold reconnect; rewrite connect_eventSources; reflexivity.
  - unfold handleTextChunk; destruct (chunk_partial data); simpl; lia.
Qed.

(** X13. An [EventSource] is created only by [connect]: after any events,
    their number is the number of reconnect timers that fired plus the
    number of manual [reconnect()] calls -- and none at all when the
    session id is empty. *)
Theorem one_event_source_per_connect :
  forall (o : SSEConnectionOptions) (tr : list Event) (s : HookState),
    eventSources (run o s tr)
    = (eventSources s
       + (if (sessionId o =? "")%string then 0 else connect_calls o s tr))%nat.
Proof.
  intros o tr; induction tr as [|e tr IH]; intros s.
  - simpl; destruct (sessionId o =? "")%string; lia.
  - rewrite run_cons, IH, step_eventSources; simpl connect_calls.
    destruct (sessionId o =? "")%string;
      destruct (is_attempt s e || is_reconnect e); lia.
Qed.

Lemma remove_nth_In {A : Type} (i : nat) (l : list A) (x : A) :
  In x (remove_nth i l) -> In x l.
Proof.
  revert i; induction l as [|y r IH]; intros i Hin; simpl in *.
  - destruct i; exact Hin.
  - destruct i as [|j]; [right; exact Hin|].
    destruct Hin as [Heq | Hin]; [left; exact Heq | right; eapply IH, Hin].
Qed.

Lemma onerror_pendingTimers (o : SSEConnectionOptions) (s : HookState) :
  pendingTimers (onerror o s)
  = if Z.of_nat (reconnectAttempts s) <? maxReconnectAttempts o
    then pendingTimers s ++ [reconnect_delay o (reconnectAttempts s)]
    else pendingTimers s.
Proof.
  unfold onerror; simpl.
  destruct (Z.of_nat (reconnectAttempts s) <? maxReconnectAttempts o);
    reflexivity.
Qed.

Lemma onerror_keeps_allowed (o : SSEConnectionOptions) (s : HookState) :
  Forall (allowed_delay o) (pendingTimers s) ->
  Forall (allowed_delay o) (pendingTimers (onerror o s)).
Proof.
  intros H; rewrite onerror_pendingTimers.
  destruct (Z.ltb_spec (Z.of_nat (reconnectAttempts s)) (maxReconnectAttempts o))
    as [Hlt | _]; [|exact H].
  apply Forall_app; split; [exact H|].
  constructor; [|constructor].
  exists (reconnectAttempts s); split; [exact Hlt | reflexivity].
Qed.

Lemma step_keeps_allowed (o : SSEConnectionOptions) (s : HookState) (e : Event) :
  Forall (allowed_delay o) (pendingTimers s) ->
  Forall (allowed_delay o) (pendingTimers (step o s e)).
Proof.
  intros H.
  destruct e as [ | now payload | | i | | now data | now data | | ]; simpl;
    auto using onerror_keeps_allowed.
  - destruct payload; simpl; auto using onerror_keeps_allowed.
  - destruct (nth_error (pendingTimers s) i); [|exact H].
    unfold reconnect_timer_callback.
    match goal with
    | |- Forall _ (pendingTimers (connect o ?s1)) =>
        destruct (connect_keeps_chat o s1) as [_ [_ Hp]]; rewrite Hp
    end.
    simpl; apply Forall_forall; intros d Hd.
    rewrite Forall_forall in H; apply H; eapply remove_nth_In, Hd.
  - unfold reconnect.
    match goal with
    | |- Forall _ (pendingTimers (connect o ?s1)) =>
        destruct (connect_keeps_chat o s1) as [_ [_ Hp]]; rewrite Hp
    end.
    exact H.
  - unfold handleTextChunk; destruct (chunk_partial data); exact H.
Qed.

Lemma pending_timers_allowed (o : SSEConnectionOptions) (tr : list Event) :
  forall s, Forall (allowed_delay o) (pendingTimers s) ->
            Forall (allowed_delay o) (pendingTimers (run o s tr)).
Proof.
  induction tr as [|e tr IH]; intros s H; [exact H|].
  rewrite run_cons; apply IH, step_keeps_allowed, H.
Qed.

(** X14. The backoff is bounded: with a non-negative base delay, every
    reconnect timer that is pending after any sequence of events has a
    delay between [baseReconnectDelay] and
    [baseReconnectDelay * 2^(maxReconnectAttempts - 1)]. *)
Theorem pending_delays_are_bounded :
  forall (o : SSEConnectionOptions) (tr : list Event) (d : Z),
    0 <= baseReconnectDelay o ->
    In d (pendingTimers (run o initial tr)) ->
    baseReconnectDelay o <= d <=
    baseReconnectDelay o * 2 ^ (maxReconnectAttempts o - 1).
Proof.
  intros o tr d Hbase Hin.
  assert (Hall : Forall (allowed_delay o) (pendingTimers (run o initial tr)))
    by (apply pending_timers_allowed; constructor).
  rewrite Forall_forall in Hall; destruct (Hall d Hin) as [n [Hn Hd]].
  subst d; unfold reconnect_delay.
  assert (H1 : 1 <= 2 ^ Z.of_nat n)
    by (change 1 with (2 ^ 0); apply Z.pow_le_mono_r; lia).
  assert (H2 : 2 ^ Z.of_nat n <= 2 ^ (maxReconnectAttempts o - 1))
    by (apply Z.pow_le_mono_r; lia).
  split; nia.
Qed.

Lemma pending_delays_are_bounded_witness :
  let o := default_options "sess_1" in
  let tr := [EvOnError; EvTimer 0; EvOnError; EvTimer 0; EvOnError] in
  0 <= baseReconnectDelay o /\
  In 4000 (pendingTimers (run o initial tr)) /\
  baseReconnectDelay o <= 4000 <=
  baseReconnectDelay o * 2 ^ (maxReconnectAttempts o - 1).
Proof.
  cbv zeta.
  assert (Hbase : 0 <= baseReconnectDelay (default_options "sess_1"))
    by (simpl; lia).
  assert (Hin : In 4000 (pendingTimers
                           (run (default_options "sess_1") initial
                              [EvOnError; EvTimer 0; EvOnError; EvTimer 0;
                               EvOnError])))
    by (vm_compute; left; reflexivity).
  split; [exact Hbase|]; split; [exact Hin|].
  exact (pending_delays_are_bounded (default_options "sess_1") _ 4000
           Hbase Hin).
Defined.

Lemma no_allowed_delay (o : SSEConnectionOptions) :
  maxReconnectAttempts o <= 0 ->
  forall l, Forall (allowed_delay o) l -> l = [].
Proof.
  intros Hmax l Hall; destruct l as [|d r]; [reflexivity|].
  inversion Hall as [|d' r' [n [Hn _]] _]; lia.
Qed.

(** X15. With [maxReconnectAttempts <= 0] automatic reconnection is off:
    after any sequence of events no timer is pending and the counter is 0,
    and every failure surfaces 'Max reconnection attempts reached'. *)
Theorem no_reconnection_without_attempts :
  forall (o : SSEConnectionOptions) (tr : list Event),
    maxReconnectAttempts o <= 0 ->
    let s := run o initial tr in
    pendingTimers s = [] /\
    reconnectAttempts s = 0%nat /\
    error (onerror o s) = Some max_attempts_message /\
    onErrorCalls (onerror o s) = onErrorCalls s ++ [max_attempts_message].
Proof.
  intros o tr Hmax s.
  assert (Hinv : forall tr' s', pendingTimers s' = [] ->
                                reconnectAttempts s' = 0%nat ->
                                pendingTimers (run o s' tr') = [] /\
                                reconnectAttempts (run o s' tr') = 0%nat).
  { induction tr' as [|e tr' IH]; intros s' Hp H0; [split; assumption|].
    rewrite run_cons; apply IH.
    - apply (no_allowed_delay o Hmax), step_keeps_allowed.
      rewrite Hp; constructor.
    - rewrite step_reconnectAttempts.
      destruct (is_open_or_reconnect e); [reflexivity|].
      unfold is_attempt; destruct e; try exact H0.
      rewrite Hp; destruct i; exact H0. }
  destruct (Hinv tr initial eq_refl eq_refl) as [Hpending Hcounter].
  fold s in Hpending, Hcounter.
  split; [exact Hpending|]; split; [exact Hcounter|].
  pose proof (onerror_effect o s) as He; cbv zeta in He.
  destruct (Z.ltb_spec (Z.of_nat (reconnectAttempts s))
                       (maxReconnectAttempts o)) as [Hlt | _]; [lia|].
  tauto.
Qed.

Lemma no_reconnection_without_attempts_witness :
  let o := {| sessionId := "sess_1"; maxReconnectAttempts := 0;
              baseReconnectDelay := 1000 |} in
  let s := run o initial [EvOnError; EvTimer 0; EvErrorListener 7 NoData] in
  maxReconnectAttempts o <= 0 /\
  pendingTimers s = [] /\
  reconnectAttempts s = 0%nat /\
  error (onerror o s) = Some max_attempts_message /\
  onErrorCalls (onerror o s) = onErrorCalls s ++ [max_attempts_message].
Proof.
  cbv zeta.
  assert (Hmax : maxReconnectAttempts
                   {| sessionId := "sess_1"; maxReconnectAttempts := 0;
                      baseReconnectDelay := 1000 |} <= 0)
    by (simpl; lia).
  split; [exact Hmax|].
  exact (no_reconnection_without_attempts _
           [EvOnError; EvTimer 0; EvErrorListener 7 NoData] Hmax).
Defined.

End UseSSEConnectionMoreFacts.

(** ** What the message list shows *)

Module MessageListFacts.
Import JsArray UseSSEConnection UseSSEConnectionApi FunctionCallRenderer.
Import MessageList.

Lemma visibleMessages_app (l1 l2 : list Message) :
  visibleMessages (l1 ++ l2) = visibleMessages l1 ++ visibleMessages l2.
Proof. apply filter_app. Qed.

Lemma send_error_is_hidden (now : Z) :
  is_send_failure (send_error_message now) = true.
Proof. reflexivity. Qed.

Lemma user_message_is_shown (now : Z) (text : string) :
  is_send_failure (user_message now text) = false.
Proof. reflexivity. Qed.

(** X16. Sending a chat message, whatever becomes of the request: the
    connection status, the error, the attempt counter and the timers are
    left alone (a failed send does not mark the connection as errored), and
    the list [MessageList] displays grows by exactly the user's message --
    the failure notice the hook stores is one the list hides.  The same
    holds when other events run between the send and its outcome: settling
    changes nothing that is displayed. *)
Theorem send_shows_only_the_user_message :
  forall (now now' : Z) (message : string) (r : SendOutcome) (s : HookState),
    let s' := sendMessage now now' message r s in
    connectionStatus s' = connectionStatus s /\
    error s' = error s /\
    reconnectAttempts s' = reconnectAttempts s /\
    pendingTimers s' = pendingTimers s /\
    visibleMessages (messages s')
    = visibleMessages (messages s) ++ [user_message now message] /\
    visibleMessages (messages (sendMessage_settle now' r s))
    = visibleMessages (messages s).
Proof.
  intros now now' message r s s'; unfold s', sendMessage, sendMessage_settle.
  destruct (send_failed r); repeat split.
  - change (messages
              (addMessage (send_error_message now')
                 (sendMessage_begin now message s)))
      with ((messages s ++ [user_message now message])
            ++ [send_error_message now']).
    rewrite !visibleMessages_app; simpl.
    apply app_nil_r.
  - change (messages (addMessage (send_error_message now') s))
      with (messages s ++ [send_error_message now']).
    rewrite visibleMessages_app; simpl; apply app_nil_r.
  - change (messages (sendMessage_begin now message s))
      with (messages s ++ [user_message now message]).
    rewrite visibleMessages_app; reflexivity.
Qed.

(** X17. A [function_call] event of the stream ends up on screen as one
    more bubble at the end of the list, whose content is what
    [FunctionCallRenderer] returns for the call carried by the event,
    under its "Function:" line (left out for the four cart functions). *)
Theorem function_call_event_is_rendered :
  forall (now : Z) (data : FunctionCallInfo) (s : HookState),
    MessageList (messages (handleFunctionCall now data s))
    = MessageList (messages s)
      ++ [ {| key := stamped "func_" now;
              avatar_text := "AI";
              className := " ";
              body := FunctionBody (function_header data)
                        (FunctionCallRenderer (to_FunctionCall data));
              time := now |} ].
Proof.
  intros now data s; unfold MessageList.
  change (messages (handleFunctionCall now data s))
    with (messages s
          ++ [ {| id := stamped "func_" now; type := T_function_call;
                  content := ("Executing " ++ fc_name data)%string;
                  timestamp := now; function_call := Some data |} ]).
  rewrite visibleMessages_app, map_app; reflexivity.
Qed.

End MessageListFacts.

(** ** More on the renderer *)

Module FunctionCallRendererMoreFacts.
Import Json FunctionCallRenderer FunctionCallRendererApi.
Import FunctionCallRendererFacts.

(** The renderer, once a component is selected. *)
Lemma render_selected (fc : FunctionCall) (c : Resolved) :
  selected (trim (name fc)) = Some c ->
  let raw := normalized_result (result fc) in
  FunctionCallRenderer fc
  = if has_generic_error raw then generic_banner raw
    else if (trim (name fc) =? "show_product_details")%string
            && validation_fails raw
         then validation_banner raw
         else ComponentElement c (mapped_props fc).
Proof.
  unfold selected, FunctionCallRenderer, mapped_props, validation_fails.
  intros Hsel; cbv zeta.
  destruct (FunctionComponents_get (trim (name fc))) as [c'|].
  - injection Hsel as ->.
    unfold has_generic_error, generic_banner.
    destruct (get (normalized_result (result fc)) "error"); reflexivity.
  - destruct (includes "cart" (trim (name fc))); [|discriminate].
    injection Hsel as <-.
    unfold has_generic_error, generic_banner.
    destruct (get (normalized_result (result fc)) "error"); reflexivity.
Qed.

(** X18. The normalized result is never [null], [undefined] or another
    falsy value: it is [result.data] when that is truthy, else [result]
    when that is truthy, else the empty object.  Every property the
    renderer reads from it is therefore read from a value. *)
Theorem normalized_result_is_a_value :
  forall (result : JSON),
    truthy (normalized_result result) = true /\
    nullish (normalized_result result) = false /\
    normalized_result result
    = (if truthy (get result "data") then get result "data"
       else if truthy result then result
       else JObj []).
Proof.
  intros result; unfold normalized_result, js_or.
  destruct (truthy (get result "data")) eqn:Hdata.
  - rewrite Hdata, Hdata; repeat split.
    destruct (get result "data"); try discriminate; reflexivity.
  - destruct (truthy result) eqn:Hres.
    + rewrite Hres; repeat split.
      destruct result; try discriminate; reflexivity.
    + repeat split.
Qed.

(** X19. An error string in the result replaces every widget: whenever a
    component is selected for the name (a key of the table, an inherited
    property, or a name containing "cart") and the normalized result
    carries a non-empty string [error], the generic error banner with that
    string is rendered. *)
Theorem error_string_replaces_every_widget :
  forall (fc : FunctionCall) (c : Resolved),
    selected (trim (name fc)) = Some c ->
    has_generic_error (normalized_result (result fc)) = true ->
    FunctionCallRenderer fc
    = ErrorBannerElement "Validation Error"
        (get (normalized_result (result fc)) "error") JUndefined.
Proof.
  intros fc c Hsel Herr.
  rewrite (render_selected fc c Hsel); cbv zeta; rewrite Herr; reflexivity.
Qed.

Lemma error_string_replaces_every_widget_witness :
  let fc := {| name := "add_to_cart";
               parameters := JObj [("product_id", JStr "prod_001");
                                   ("quantity", JNum 100)];
               result := JObj [("success", JBool false);
                               ("error", JStr "Insufficient stock")] |} in
  selected (trim (name fc)) = Some (Own CartNotification) /\
  has_generic_error (normalized_result (result fc)) = true /\
  FunctionCallRenderer fc
  = ErrorBannerElement "Validation Error" (JStr "Insufficient stock")
      JUndefined.
Proof.
  cbv zeta.
  split; [reflexivity|]; split; [reflexivity|].
  exact (error_string_replaces_every_widget
           {| name := "add_to_cart";
              parameters := JObj [("product_id", JStr "prod_001");
                                  ("quantity", JNum 100)];
              result := JObj [("success", JBool false);
                              ("error", JStr "Insufficient stock")] |}
           (Own CartNotification) eq_refl eq_refl).
Defined.

Lemma own_property_selected (n : string) (c : Component) :
  own_property n FunctionComponents = Some c -> selected n = Some (Own c).
Proof.
  unfold selected, FunctionComponents_get; intros H; rewrite H; reflexivity.
Qed.

(** X20. A name of the table gets its own widget: when the trimmed name is
    a key of [FunctionComponents], the result carries no error string and,
    for [show_product_details], the validation test does not fail, the
    element rendered is the component of that key with the mapped props. *)
Theorem table_name_renders_its_component :
  forall (fc : FunctionCall) (c : Component),
    own_property (trim (name fc)) FunctionComponents = Some c ->
    has_generic_error (normalized_result (result fc)) = false ->
    (trim (name fc) =? "show_product_details")%string
    && validation_fails (normalized_result (result fc)) = false ->
    FunctionCallRenderer fc = ComponentElement (Own c) (mapped_props fc).
Proof.
  intros fc c Hown Herr Hvalid.
  rewrite (render_selected fc (Own c) (own_property_selected _ _ Hown)).
  cbv zeta; rewrite Herr, Hvalid; reflexivity.
Qed.

Lemma table_name_renders_its_component_witness :
  let fc := {| name := "show_product_details";
               parameters := JObj [("product_id", JStr "prod_001")];
               result :=
                 JObj [("data",
                        JObj [("product",
                               JObj [("id", JStr "prod_001");
                                     ("name", JStr "Smart Camera")]);
                              ("recommendations", JArr [])])] |} in
  own_property (trim (name fc)) FunctionComponents = Some ProductCard /\
  has_generic_error (normalized_result (result fc)) = false /\
  (trim (name fc) =? "show_product_details")%string
  && validation_fails (normalized_result (result fc)) = false /\
  FunctionCallRenderer fc
  = ComponentElement (Own ProductCard)
      [("product_id", JStr "prod_001");
       ("product", JObj [("id", JStr "prod_001");
                         ("name", JStr "Smart Camera")]);
       ("recommendations", JArr [])].
Proof.
  cbv zeta.
  split; [reflexivity|]; split; [reflexivity|]; split; [reflexivity|].
  exact (table_name_renders_its_component
           {| name := "show_product_details";
              parameters := JObj [("product_id", JStr "prod_001")];
              result :=
                JObj [("data",
                       JObj [("product",
                              JObj [("id", JStr "prod_001");
                                    ("name", JStr "Smart Camera")]);
                             ("recommendations", JArr [])])] |}
           ProductCard eq_refl eq_refl eq_refl).
Defined.

(** *** Names that contain "cart" *)

Lemma prefix_app (sub rest : string) : prefix sub (sub ++ rest) = true.
Proof.
  induction sub as [|c sub IH]; simpl.
  - destruct rest; reflexivity.
  - destruct (ascii_dec c c) as [_ | Hne]; [exact IH | contradiction].
Qed.

Lemma includes_app (sub before rest : string) :
  includes sub (before ++ sub ++ rest) = true.
Proof.
  induction before as [|c before IH].
  - simpl append; pose proof (prefix_app sub rest) as Hp.
    destruct (sub ++ rest)%string; cbn [includes]; rewrite Hp; reflexivity.
  - simpl append; cbn [includes].
    destruct (prefix sub (String c (before ++ sub ++ rest))); [reflexivity|].
    exact IH.
Qed.

Lemma not_key_not_named (n k : string) :
  is_key n = false -> is_key k = true -> (n =? k)%string = false.
Proof.
  intros Hn Hk; destruct (String.eqb_spec n k) as [Heq | _]; [|reflexivity].
  subst n; rewrite Hk in Hn; discriminate.
Qed.

(** X21. Any other name that contains "cart" ([update_cart], [view_cart],
    ...) is shown as the cart view: when the trimmed name is not a key of
    the table nor a member of [Object.prototype], has "cart" somewhere in
    it, and the result carries no error string, the renderer returns
    [CartView] with the parameters and the result as props. *)
Theorem cart_names_render_the_cart_view :
  forall (fc : FunctionCall) (before rest : string),
    trim (name fc) = (before ++ "cart" ++ rest)%string ->
    is_key (trim (name fc)) = false ->
    is_inherited (trim (name fc)) = false ->
    has_generic_error (normalized_result (result fc)) = false ->
    FunctionCallRenderer fc
    = ComponentElement (Own CartView)
        (spread (parameters fc) ++ spread (normalized_result (result fc))).
Proof.
  intros fc before rest Hname Hkey Hinh Herr.
  assert (Hsel : selected (trim (name fc)) = Some (Own CartView)).
  { unfold selected, FunctionComponents_get.
    unfold is_key in Hkey.
    destruct (own_property (trim (name fc)) FunctionComponents);
      [discriminate|].
    unfold is_inherited in Hinh; rewrite Hinh.
    rewrite Hname, includes_app; reflexivity. }
  rewrite (render_selected fc _ Hsel); cbv zeta; rewrite Herr.
  rewrite (not_key_not_named _ "show_product_details" Hkey eq_refl).
  unfold mapped_props.
  rewrite (not_key_not_named _ "add_to_cart" Hkey eq_refl); reflexivity.
Qed.

Lemma cart_names_render_the_cart_view_witness :
  let fc := {| name := "update_cart";
               parameters := JObj [("product_id", JStr "prod_001")];
               result := JObj [("data", JObj [("items", JArr [])])] |} in
  trim (name fc) = ("update_" ++ "cart" ++ "")%string /\
  is_key (trim (name fc)) = false /\
  is_inherited (trim (name fc)) = false /\
  has_generic_error (normalized_result (result fc)) = false /\
  FunctionCallRenderer fc
  = ComponentElement (Own CartView)
      [("product_id", JStr "prod_001"); ("items", JArr [])].
Proof.
  cbv zeta.
  split; [reflexivity|]; split; [reflexivity|]; split; [reflexivity|].
  split; [reflexivity|].
  exact (cart_names_render_the_cart_view
           {| name := "update_cart";
              parameters := JObj [("product_id", JStr "prod_001")];
              result := JObj [("data", JObj [("items", JArr [])])] |}
           "update_" "" eq_refl eq_refl eq_refl eq_refl).
Defined.

(** *** The props a widget receives *)






End FunctionCallRendererMoreFacts.

(** ** Trimming, and what follows from it *)

Module TrimFacts.
Import Json FunctionCallRenderer FunctionCallRendererApi.
Import FunctionCallRendererFacts FunctionCallRendererMoreFacts.

(** *** [trim_start] and [trim_end_rev] step by step *)

Ltac step_cases :=
  repeat match goal with
         | |- context [if ?b then _ else _] => destruct b
         | |- context [match ?r with [] => _ | _ :: _ => _ end] =>
             is_var r; destruct r
         end; try reflexivity.

Lemma trim_start_step (l : list ascii) :
  trim_start l = match skip_space l with
                 | Some r => trim_start r
                 | None => l
                 end.
Proof.
  destruct l as [|c1 r1]; cbn [trim_start skip_space]; step_cases.
Qed.

Lemma trim_end_rev_step (l : list ascii) :
  trim_end_rev l = match skip_space_rev l with
                   | Some r => trim_end_rev r
                   | None => l
                   end.
Proof.
  destruct l as [|c1 r1]; cbn [trim_end_rev skip_space_rev]; step_cases.
Qed.

Lemma skip_space_suffix (l r : list ascii) :
  skip_space l = Some r -> exists p, p <> [] /\ l = p ++ r.
Proof.
  destruct l as [|c1 [|c2 [|c3 l]]]; cbn [skip_space];
    repeat match goal with
           | |- context [if ?b then _ else _] => destruct b
           end; intros H; inversion H; subst.
  all: first [ now (exists [c1]; split; [discriminate | reflexivity])
             | now (exists [c1; c2]; split; [discriminate | reflexivity])
             | now (exists [c1; c2; c3]; split; [discriminate | reflexivity]) ].
Qed.

Lemma skip_space_rev_suffix (l r : list ascii) :
  skip_space_rev l = Some r -> exists p, p <> [] /\ l = p ++ r.
Proof.
  destruct l as [|c1 [|c2 [|c3 l]]]; cbn [skip_space_rev];
    repeat match goal with
           | |- context [if ?b then _ else _] => destruct b
           end; intros H; inversion H; subst.
  all: first [ now (exists [c1]; split; [discriminate | reflexivity])
             | now (exists [c1; c2]; split; [discriminate | reflexivity])
             | now (exists [c1; c2; c3]; split; [discriminate | reflexivity]) ].
Qed.

Lemma suffix_shorter {A : Type} (p l r : list A) :
  p <> [] -> l = p ++ r -> (List.length r < List.length l)%nat.
Proof.
  intros Hp ->; rewrite length_app; destruct p; [contradiction | simpl; lia].
Qed.

(** Induction along the steps of a trimming function. *)
Lemma steps_ind (step : list ascii -> option (list ascii))
  (Hstep : forall l r, step l = Some r -> exists p, p <> [] /\ l = p ++ r)
  (P : list ascii -> Prop) :
  (forall l, step l = None -> P l) ->
  (forall l r, step l = Some r -> P r -> P l) ->
  forall l, P l.
Proof.
  intros Hstop Hgo l.
  remember (List.length l) as n eqn:Hn.
  revert l Hn; induction n as [n IH] using (well_founded_induction lt_wf).
  intros l Hn; destruct (step l) as [r|] eqn:Hs.
  - apply (Hgo l r Hs).
    destruct (Hstep l r Hs) as [p [Hp Hl]].
    apply (IH (List.length r)); [|reflexivity].
    rewrite Hn; exact (suffix_shorter p l r Hp Hl).
  - apply Hstop, Hs.
Qed.

(** What a trimming function returns is a suffix of its argument on which
    it stops. *)
Lemma trim_start_stops (l : list ascii) :
  skip_space (trim_start l) = None /\ exists p, l = p ++ trim_start l.
Proof.
  induction l as [l Hs | l r Hs [IH [p Hp]]]
    using (steps_ind skip_space skip_space_suffix);
    rewrite trim_start_step, Hs.
  - split; [exact Hs | exists []; reflexivity].
  - split; [exact IH|].
    destruct (skip_space_suffix l r Hs) as [q [_ Hq]].
    exists (q ++ p); rewrite <- app_assoc, <- Hp; exact Hq.
Qed.

Lemma trim_end_rev_stops (l : list ascii) :
  skip_space_rev (trim_end_rev l) = None /\
  exists p, l = p ++ trim_end_rev l.
Proof.
  induction l as [l Hs | l r Hs [IH [p Hp]]]
    using (steps_ind skip_space_rev skip_space_rev_suffix);
    rewrite trim_end_rev_step, Hs.
  - split; [exact Hs | exists []; reflexivity].
  - split; [exact IH|].
    destruct (skip_space_rev_suffix l r Hs) as [q [_ Hq]].
    exists (q ++ p); rewrite <- app_assoc, <- Hp; exact Hq.
Qed.

Lemma trim_start_stopped (l : list ascii) :
  skip_space l = None -> trim_start l = l.
Proof. intros H; rewrite trim_start_step, H; reflexivity. Qed.

Lemma trim_end_rev_stopped (l : list ascii) :
  skip_space_rev l = None -> trim_end_rev l = l.
Proof. intros H; rewrite trim_end_rev_step, H; reflexivity. Qed.

(** *** White space of the ASCII range before and after *)

Lemma trim_start_blank (l r : list ascii) :
  forallb is_space l = true -> trim_start (l ++ r) = trim_start r.
Proof.
  induction l as [|c l IH]; cbn [forallb app]; intros H; [reflexivity|].
  apply andb_true_iff in H; destruct H as [Hc Hl].
  cbn [trim_start]; rewrite Hc; apply IH, Hl.
Qed.

Lemma trim_end_rev_blank (l r : list ascii) :
  forallb is_space l = true -> trim_end_rev (l ++ r) = trim_end_rev r.
Proof.
  induction l as [|c l IH]; cbn [forallb app]; intros H; [reflexivity|].
  apply andb_true_iff in H; destruct H as [Hc Hl].
  cbn [trim_end_rev]; rewrite Hc; apply IH, Hl.
Qed.

(** A step of [trim_start] reads a prefix only. *)
Lemma skip_space_app (l r x : list ascii) :
  skip_space l = Some r -> skip_space (l ++ x) = Some (r ++ x).
Proof.
  destruct l as [|c1 [|c2 [|c3 l]]]; cbn [skip_space app];
    repeat match goal with
           | |- context [if ?b then _ else _] => destruct b
           end; intros H; inversion H; subst; reflexivity.
Qed.

Lemma trim_start_app (l x : list ascii) :
  trim_start (l ++ x) = trim_start (trim_start l ++ x).
Proof.
  induction l as [l Hs | l r Hs IH]
    using (steps_ind skip_space skip_space_suffix).
  - rewrite (trim_start_stopped l Hs); reflexivity.
  - rewrite (trim_start_step (l ++ x)), (skip_space_app l r x Hs), IH.
    rewrite (trim_start_step l), Hs; reflexivity.
Qed.

(** The bytes of the ASCII white space continue no sequence. *)
Lemma is_space_byte (c : ascii) :
  is_space c = true -> (nat_of_ascii c < 128)%nat.
Proof.
  unfold is_space; cbv zeta; intros H.
  apply orb_true_iff in H; destruct H as [H | H].
  - apply andb_true_iff in H; destruct H as [_ H].
    apply Nat.leb_le in H; lia.
  - apply Nat.eqb_eq in H; lia.
Qed.

Lemma is_space2_second (c1 c2 : ascii) :
  is_space2 c1 c2 = true -> (128 <= nat_of_ascii c2)%nat.
Proof.
  unfold is_space2; intros H; apply andb_true_iff in H.
  destruct H as [_ H]; apply Nat.eqb_eq in H; lia.
Qed.

Lemma is_space3_second (c1 c2 c3 : ascii) :
  is_space3 c1 c2 c3 = true -> (128 <= nat_of_ascii c2)%nat.
Proof.
  unfold is_space3; cbv zeta; intros H.
  repeat match type of H with
         | (_ || _)%bool = true =>
             apply orb_true_iff in H; destruct H as [H | H]
         end;
    apply andb_true_iff in H; destruct H as [H _];
    apply andb_true_iff in H; destruct H as [_ H];
    apply Nat.eqb_eq in H; lia.
Qed.

Lemma is_space3_third (c1 c2 c3 : ascii) :
  is_space3 c1 c2 c3 = true -> (128 <= nat_of_ascii c3)%nat.
Proof.
  unfold is_space3; cbv zeta; intros H.
  repeat match type of H with
         | (_ || _)%bool = true =>
             apply orb_true_iff in H; destruct H as [H | H]
         end;
    apply andb_true_iff in H; destruct H as [_ H];
    repeat match type of H with
           | (_ || _)%bool = true =>
               apply orb_true_iff in H; destruct H as [H | H]
           end;
    try (apply andb_true_iff in H; destruct H as [H _]);
    try apply Nat.eqb_eq in H; try apply Nat.leb_le in H; lia.
Qed.

Lemma not_space2_before_blank (c1 c2 : ascii) :
  is_space c2 = true -> is_space2 c1 c2 = false.
Proof.
  intros H; apply is_space_byte in H.
  destruct (is_space2 c1 c2) eqn:E; [|reflexivity].
  apply is_space2_second in E; lia.
Qed.

Lemma not_space3_before_blank (c1 c2 c3 : ascii) :
  is_space c2 = true \/ is_space c3 = true -> is_space3 c1 c2 c3 = false.
Proof.
  intros H; destruct (is_space3 c1 c2 c3) eqn:E; [|reflexivity].
  destruct H as [H | H]; apply is_space_byte in H.
  - apply is_space3_second in E; lia.
  - apply is_space3_third in E; lia.
Qed.

(** Where [trim_start] stops, it still stops when ASCII white space
    follows. *)
Lemma skip_space_before_blank (u post : list ascii) :
  u <> [] -> skip_space u = None -> forallb is_space post = true ->
  skip_space (u ++ post) = None.
Proof.
  intros Hu Hs Hpost.
  destruct u as [|c1 [|c2 [|c3 u]]]; [contradiction| | |].
  - revert Hs; cbn [skip_space app].
    destruct (is_space c1 || is_nbsp_byte c1); [discriminate|]; intros _.
    destruct post as [|p1 post]; [reflexivity|].
    cbn [forallb] in Hpost; apply andb_true_iff in Hpost.
    destruct Hpost as [Hp1 Hpost].
    rewrite (not_space2_before_blank c1 p1 Hp1).
    destruct post as [|p2 post]; [reflexivity|].
    rewrite (not_space3_before_blank c1 p1 p2 (or_introl Hp1)); reflexivity.
  - revert Hs; cbn [skip_space app].
    destruct (is_space c1 || is_nbsp_byte c1); [discriminate|].
    destruct (is_space2 c1 c2); [discriminate|]; intros _.
    destruct post as [|p1 post]; [reflexivity|].
    cbn [forallb] in Hpost; apply andb_true_iff in Hpost.
    destruct Hpost as [Hp1 _].
    rewrite (not_space3_before_blank c1 c2 p1 (or_intror Hp1)); reflexivity.
  - revert Hs; cbn [skip_space app].
    destruct (is_space c1 || is_nbsp_byte c1); [discriminate|].
    destruct (is_space2 c1 c2); [discriminate|].
    destruct (is_space3 c1 c2 c3); [discriminate | reflexivity].
Qed.

Lemma forallb_rev {A : Type} (f : A -> bool) (l : list A) :
  forallb f l = true -> forallb f (rev l) = true.
Proof.
  intros H; apply forallb_forall; intros x Hx.
  rewrite forallb_forall in H; apply H, in_rev, Hx.
Qed.

(** The list version of [trim]. *)
Lemma trim_list_padded (pre l post : list ascii) :
  forallb is_space pre = true -> forallb is_space post = true ->
  trim_end (trim_start (pre ++ l ++ post)) = trim_end (trim_start l).
Proof.
  intros Hpre Hpost; rewrite (trim_start_blank pre _ Hpre).
  rewrite trim_start_app.
  destruct (trim_start_stops l) as [Hstop _].
  destruct (trim_start l) as [|c u] eqn:Hu.
  - cbn [app]; rewrite <- (app_nil_r post), (trim_start_blank post [] Hpost).
    reflexivity.
  - rewrite (trim_start_stopped _
               (skip_space_before_blank (c :: u) post
                  ltac:(discriminate) Hstop Hpost)).
    unfold trim_end; rewrite rev_app_distr.
    rewrite (trim_end_rev_blank (rev post) _ (forallb_rev _ _ Hpost)).
    reflexivity.
Qed.

Lemma trim_list_twice (l : list ascii) :
  let t := trim_end (trim_start l) in
  trim_end (trim_start t) = t.
Proof.
  intros t.
  destruct (trim_start_stops l) as [Hstop _].
  destruct (trim_end_rev_stops (rev (trim_start l))) as [Hstop' [p Hp]].
  assert (Hu : trim_start l = t ++ rev p).
  { unfold t, trim_end; rewrite <- rev_app_distr, <- Hp, rev_involutive.
    reflexivity. }
  assert (Hhead : trim_start t = t).
  { apply trim_start_stopped.
    destruct (skip_space t) as [r|] eqn:Hs; [|reflexivity].
    apply (skip_space_app t r (rev p)) in Hs.
    rewrite <- Hu, Hstop in Hs; discriminate Hs. }
  rewrite Hhead; unfold t, trim_end; rewrite rev_involutive.
  rewrite (trim_end_rev_stopped _ Hstop'); reflexivity.
Qed.

Lemma list_ascii_of_string_app (a b : string) :
  list_ascii_of_string (a ++ b)
  = list_ascii_of_string a ++ list_ascii_of_string b.
Proof.
  induction a as [|c a IH]; simpl; [reflexivity | rewrite IH; reflexivity].
Qed.

Lemma trim_twice (s : string) : trim (trim s) = trim s.
Proof.
  unfold trim; rewrite list_ascii_of_string_of_list_ascii.
  rewrite trim_list_twice; reflexivity.
Qed.

Lemma trim_padded (pre s post : string) :
  is_blank pre = true -> is_blank post = true ->
  trim (pre ++ s ++ post) = trim s.
Proof.
  unfold is_blank, trim; intros Hpre Hpost.
  rewrite !list_ascii_of_string_app, trim_list_padded by assumption.
  reflexivity.
Qed.

(** The white space beyond the ASCII range is removed as well: a no-break
    space, a byte order mark and a line separator around a name. *)
Example trim_removes_unicode_white_space :
  trim (no_break_space ++ "search_products" ++ no_break_space)
  = "search_products" /\
  trim (byte_order_mark ++ " get_cart" ++ line_separator) = "get_cart" /\
  trim (String "160" "search_products") = "search_products" /\
  trim (no_break_space ++ line_separator) = "".
Proof. repeat split. Qed.

Example no_break_space_before_a_name :
  FunctionCallRenderer
    {| name := (no_break_space ++ "search_products")%string;
       parameters := JObj [("query", JStr "test")];
       result := JNull |}
  = ComponentElement (Own SearchResults) [("query", JStr "test")].
Proof. reflexivity. Qed.

Example no_break_space_is_no_message :
  Interaction.submitted (Some "sess_1") UseSSEConnection.connected
    no_break_space = None.
Proof. reflexivity. Qed.

(** X23. White space of the ASCII range around a function name, whatever
    the name, does not change what is rendered when the trimmed name
    selects a component; when it selects none, the fallback box is returned
    and prints the name as received, white space included. *)
Theorem padding_the_name_changes_nothing :
  forall (fc : FunctionCall) (pre post : string),
    is_blank pre = true -> is_blank post = true ->
    let padded := {| name := (pre ++ name fc ++ post)%string;
                     parameters := parameters fc;
                     result := result fc |} in
    trim (name padded) = trim (name fc) /\
    FunctionCallRenderer padded
    = match selected (trim (name fc)) with
      | Some _ => FunctionCallRenderer fc
      | None => UnknownFunctionCall (name padded) (parameters fc)
      end.
Proof.
  intros fc pre post Hpre Hpost padded.
  assert (Htrim : trim (name padded) = trim (name fc))
    by (apply trim_padded; assumption).
  split; [exact Htrim|].
  destruct (selected (trim (name fc))) as [c|] eqn:Hsel.
  - rewrite (render_selected fc c Hsel).
    rewrite (render_selected padded c) by (rewrite Htrim; exact Hsel).
    cbv zeta; unfold mapped_props; rewrite Htrim; reflexivity.
  - unfold FunctionCallRenderer; rewrite Htrim.
    unfold selected in Hsel.
    destruct (FunctionComponents_get (trim (name fc))); [discriminate|].
    destruct (includes "cart" (trim (name fc))); [discriminate|].
    reflexivity.
Qed.

Lemma padding_the_name_changes_nothing_witness :
  let fc := {| name := (no_break_space ++ "get_cart")%string;
               parameters := JObj [];
               result := JObj [("data", JObj [("items", JArr [])])] |} in
  let padded := {| name := ("  " ++ name fc ++ " ")%string;
                   parameters := parameters fc;
                   result := result fc |} in
  is_blank "  " = true /\ is_blank " " = true /\
  trim (name padded) = trim (name fc) /\
  FunctionCallRenderer padded = FunctionCallRenderer fc.
Proof.
  cbv zeta.
  split; [reflexivity|]; split; [reflexivity|].
  exact (padding_the_name_changes_nothing
           {| name := (no_break_space ++ "get_cart")%string;
              parameters := JObj [];
              result := JObj [("data", JObj [("items", JArr [])])] |}
           "  " " " eq_refl eq_refl).
Defined.

(** X24. What reaches the hook from the input field: a click on "Send"
    calls [sendMessage] exactly when the connection is connected, a session
    exists and [value.trim()] is not empty, and the message passed is the
    trimmed text, which is not empty and which trimming leaves as it is. *)
Theorem only_trimmed_text_is_sent :
  forall (sessionId : option string)
         (status : UseSSEConnection.ConnectionStatus) (value : string),
    Interaction.submitted sessionId status value
    = (if negb (Interaction.input_disabled status)
          && Interaction.has_session sessionId
          && negb (trim value =? "")%string
       then Some (trim value)
       else None) /\
    trim (trim value) = trim value /\
    Interaction.submitted sessionId status value <> Some "".
Proof.
  intros sessionId status value.
  assert (Hsub : Interaction.submitted sessionId status value
                 = (if negb (Interaction.input_disabled status)
                       && Interaction.has_session sessionId
                       && negb (trim value =? "")%string
                    then Some (trim value)
                    else None)).
  { unfold Interaction.submitted, Interaction.handleSend,
      Interaction.handleSendMessage.
    destruct (trim value =? "")%string eqn:Hblank; simpl.
    - rewrite !andb_false_r; reflexivity.
    - destruct (Interaction.input_disabled status); simpl; [reflexivity|].
      rewrite Hblank; simpl.
      destruct (Interaction.has_session sessionId); reflexivity. }
  split; [exact Hsub|]; split; [apply trim_twice|].
  rewrite Hsub.
  destruct (negb (Interaction.input_disabled status)
            && Interaction.has_session sessionId); simpl; [|discriminate].
  destruct (String.eqb_spec (trim value) "") as [|Hne]; simpl;
    [discriminate|].
  intros Heq; injection Heq as Heq; contradiction.
Qed.

End TrimFacts.

(** ** From a widget's button to the chat *)

Module InteractionFacts.
Import Json FunctionCallRenderer Interaction.

Lemma nonempty_is_truthy (p : string) : p <> "" -> truthy (JStr p) = true.
Proof.
  intros H; simpl; apply negb_true_iff, String.eqb_neq, H.
Qed.

(** X25. The buttons of the product widgets become chat messages: for a
    product whose id is a non-empty string [p], "View details" sends
    [details p] and "Add to cart" with quantity [q] sends
    [add to cart p q] -- the quantity as given, also when it is 0, and 1
    when the interaction carries none.  Without a product id nothing is
    sent. *)
Theorem product_buttons_send_chat_messages :
  forall (sessionId fname p : string) (q : Z),
    p <> "" ->
    react sessionId (onProductSelect fname (JStr p))
    = Some (SendChat ("details " ++ p)) /\
    react sessionId (onAddToCart fname (JStr p) (JNum q))
    = Some (SendChat ("add to cart " ++ p ++ " " ++ js_to_string (JNum q))) /\
    onInteraction sessionId "add_to_cart" (JObj [("product_id", JStr p)])
    = Some (SendChat ("add to cart " ++ p ++ " 1")) /\
    react sessionId (onProductSelect fname JUndefined) = None /\
    react sessionId (onAddToCart fname JNull (JNum q)) = None.
Proof.
  intros sessionId fname p q Hp.
  pose proof (nonempty_is_truthy p Hp) as Htruthy.
  unfold react, onProductSelect, onAddToCart, handleInteraction, onInteraction.
  cbn [fst snd spread get lookup_field String.eqb Ascii.eqb Bool.eqb andb
       truthy js_coalesce nullish].
  cbn [truthy] in Htruthy; rewrite Htruthy.
  repeat split.
Qed.

Lemma product_buttons_send_chat_messages_witness :
  "prod_001" <> "" /\
  react "sess_1" (onProductSelect "search_products" (JStr "prod_001"))
  = Some (SendChat "details prod_001") /\
  react "sess_1" (onAddToCart "show_product_details" (JStr "prod_001") (JNum 1))
  = Some (SendChat "add to cart prod_001 1").
Proof.
  assert (H : "prod_001" <> "") by discriminate.
  split; [exact H|].
  destruct (product_buttons_send_chat_messages "sess_1" "search_products"
              "prod_001" 1 H) as [Hselect _].
  destruct (product_buttons_send_chat_messages "sess_1" "show_product_details"
              "prod_001" 1 H) as [_ [Hadd _]].
  split; [exact Hselect | exact Hadd].
Defined.

(** X26. The buttons of the cart view go to the REST endpoints and always
    end with the chat message [show cart]: "Remove" posts the session id
    with whichever of the product id and the item id is present; "+" and
    "-" post the session id, the product id and the delta, provided there
    is a product id.  An action that is not one of the four known ones
    does nothing. *)
Theorem cart_buttons_post_then_show_cart :
  forall (sessionId fname : string) (item_id pid : JSON) (delta : Z)
         (action : string) (data : JSON),
    react sessionId (cart_remove fname item_id pid)
    = Some (PostThenSend "/api/functions/remove_from_cart"
              (JObj ([("session_id", JStr sessionId)]
                     ++ optional_field "product_id" pid
                     ++ optional_field "item_id" item_id))
              "show cart") /\
    react sessionId (cart_change_quantity fname pid delta)
    = (if truthy pid
       then Some (PostThenSend "/api/functions/update_cart"
                    (JObj [("session_id", JStr sessionId);
                           ("product_id", pid);
                           ("delta", JNum delta)])
                    "show cart")
       else None) /\
    (onInteraction sessionId action data = None \/
     is_known_action action = true).
Proof.
  intros sessionId fname item_id pid delta action data.
  split; [reflexivity|]; split.
  - unfold react, cart_change_quantity, handleInteraction, onInteraction.
    cbn [fst snd spread get lookup_field String.eqb Ascii.eqb Bool.eqb andb
         is_number].
    destruct (truthy pid); reflexivity.
  - unfold onInteraction, is_known_action.
    destruct (action =? "select_product")%string; [right; reflexivity|].
    destruct (action =? "add_to_cart")%string; [right; reflexivity|].
    destruct (action =? "remove_from_cart")%string; [right; reflexivity|].
    destruct (action =? "update_cart")%string; [right; reflexivity|].
    left; reflexivity.
Qed.

End InteractionFacts.

(** ** Changing the quantity of a line *)

Module CartLineFacts.
Import JsArray JsArrayFacts AppStateContext AppStateFacts.

Lemma line_totals_sum_middle (l1 l2 : list CartItem) (x : CartItem) :
  line_totals_sum (l1 ++ x :: l2)
  = line_totals_sum l1 + total_price x + line_totals_sum l2.
Proof.
  unfold line_totals_sum; induction l1 as [|y l1 IH]; simpl; [lia|].
  rewrite IH; lia.
Qed.

Lemma map_at_unique (f : CartItem -> CartItem) (p : CartItem -> bool)
  (l1 l2 : list CartItem) (x : CartItem) :
  (forall y, In y l1 -> p y = false) ->
  (forall y, In y l2 -> p y = false) ->
  p x = true ->
  map (fun y => if p y then f y else y) (l1 ++ x :: l2) = l1 ++ f x :: l2.
Proof.
  intros H1 H2 Hx; rewrite map_app; simpl; rewrite Hx.
  rewrite !AppStateMoreFacts.map_untouched; [reflexivity | |].
  - intros y Hy; rewrite (H2 y Hy); reflexivity.
  - intros y Hy; rewrite (H1 y Hy); reflexivity.
Qed.

(** X27. ADD_TO_CART of a product that already has a line, wherever that
    line stands: no line is added, the first line of the product gets the
    sum of the quantities and [total_price = quantity * unit_price] at its
    own unit price (the payload's unit price and total are ignored), every
    other line is untouched and [cartTotal] is the new sum. *)
Theorem adding_a_known_product_merges :
  forall (s : AppState) (before after : list CartItem)
         (line payload : CartItem),
    cartItems s = before ++ line :: after ->
    (forall item, In item before -> product_id item <> product_id payload) ->
    product_id line = product_id payload ->
    let s' := appReducer s (ADD_TO_CART payload) in
    let merged := {| id := id line; product_id := product_id line;
                     product_name := product_name line;
                     quantity := quantity line + quantity payload;
                     unit_price := unit_price line;
                     total_price := (quantity line + quantity payload)
                                    * unit_price line |} in
    cartItems s' = before ++ merged :: after /\
    List.length (cartItems s') = List.length (cartItems s) /\
    cartTotal s'
    = line_totals_sum before
      + (quantity line + quantity payload) * unit_price line
      + line_totals_sum after.
Proof.
  intros s before after line payload Hs Habsent Hsame s' merged.
  assert (Hitems : cartItems s' = before ++ merged :: after).
  { unfold s'; simpl; rewrite Hs; unfold findIndex, mapi.
    rewrite findIndex_from_first;
      [| apply no_line_for, Habsent | apply String.eqb_eq, Hsame].
    destruct (Z.geb_spec (0 + Z.of_nat (List.length before)) 0) as [_ | Hneg];
      [| lia].
    apply (mapi_from_at (fun item => merge_line item payload)). }
  split; [exact Hitems|]; split.
  - rewrite Hitems, Hs, !length_app; reflexivity.
  - assert (Hc : cart_consistent s')
      by (unfold s', cart_consistent; simpl; apply sum_total_price_is_sum).
    unfold cart_consistent in Hc; rewrite Hc, Hitems.
    apply line_totals_sum_middle.
Qed.

Lemma adding_a_known_product_merges_witness :
  let a := {| id := "cart_1"; product_id := "prod_001";
              product_name := "Headphones"; quantity := 1;
              unit_price := 1000; total_price := 1000 |} in
  let b := {| id := "cart_2"; product_id := "prod_002";
              product_name := "Case"; quantity := 2;
              unit_price := 300; total_price := 600 |} in
  let payload := {| id := "cart_3"; product_id := "prod_001";
                    product_name := "Headphones"; quantity := 4;
                    unit_price := 900; total_price := 3600 |} in
  let s := dispatch_all initialState [ADD_TO_CART a; ADD_TO_CART b] in
  cartItems s = [] ++ a :: [b] /\
  (forall item, In item [] -> product_id item <> product_id payload) /\
  product_id a = product_id payload /\
  cartTotal (appReducer s (ADD_TO_CART payload))
  = line_totals_sum [] + (quantity a + quantity payload) * unit_price a
    + line_totals_sum [b].
Proof.
  cbv zeta.
  assert (H : forall item : CartItem,
             In item [] ->
             product_id item
             <> product_id {| id := "cart_3"; product_id := "prod_001";
                              product_name := "Headphones"; quantity := 4;
                              unit_price := 900; total_price := 3600 |})
    by (intros item []).
  split; [reflexivity|]; split; [exact H|]; split; [reflexivity|].
  exact (proj2 (proj2 (adding_a_known_product_merges
                         (dispatch_all initialState
                            [ADD_TO_CART
                               {| id := "cart_1"; product_id := "prod_001";
                                  product_name := "Headphones"; quantity := 1;
                                  unit_price := 1000; total_price := 1000 |};
                             ADD_TO_CART
                               {| id := "cart_2"; product_id := "prod_002";
                                  product_name := "Case"; quantity := 2;
                                  unit_price := 300; total_price := 600 |}])
                         [] _ _ _ eq_refl H eq_refl))).
Defined.

(** X28. UPDATE_CART_ITEM of the id of exactly one line: that line gets
    the new quantity and [total_price = quantity * unit_price], every other
    line is untouched, and [cartTotal] is the new sum.  Through the
    provider's [updateCartItem] this is what a positive quantity does; a
    quantity of 0 or less removes the line instead. *)
Theorem updating_a_line_recomputes_its_total :
  forall (s : AppState) (before after : list CartItem) (line : CartItem)
         (q : Z),
    cartItems s = before ++ line :: after ->
    (forall item, In item before -> id item <> id line) ->
    (forall item, In item after -> id item <> id line) ->
    let updated := {| id := id line; product_id := product_id line;
                      product_name := product_name line; quantity := q;
                      unit_price := unit_price line;
                      total_price := q * unit_price line |} in
    cartItems (appReducer s (UPDATE_CART_ITEM (id line) q))
    = before ++ updated :: after /\
    cartTotal (appReducer s (UPDATE_CART_ITEM (id line) q))
    = line_totals_sum before + q * unit_price line + line_totals_sum after /\
    cartItems (appReducer s (dispatched (updateCartItem (id line) q)))
    = (if q <=? 0 then before ++ after else before ++ updated :: after).
Proof.
  intros s before after line q Hs Hbefore Hafter updated.
  assert (Hb : forall y, In y before -> (id y =? id line)%string = false)
    by (intros y Hy; apply String.eqb_neq, Hbefore, Hy).
  assert (Ha : forall y, In y after -> (id y =? id line)%string = false)
    by (intros y Hy; apply String.eqb_neq, Hafter, Hy).
  assert (Hitems : cartItems (appReducer s (UPDATE_CART_ITEM (id line) q))
                   = before ++ updated :: after).
  { simpl; rewrite Hs.
    apply (map_at_unique (fun item => requantify item q)
             (fun item => (id item =? id line)%string));
      [exact Hb | exact Ha | apply String.eqb_refl]. }
  split; [exact Hitems|]; split.
  - assert (Hc : cart_consistent (appReducer s (UPDATE_CART_ITEM (id line) q)))
      by (unfold cart_consistent; simpl; apply sum_total_price_is_sum).
    unfold cart_consistent in Hc; rewrite Hc, Hitems.
    apply line_totals_sum_middle.
  - simpl dispatched; destruct (q <=? 0); [|exact Hitems].
    simpl; rewrite Hs, filter_app; simpl.
    rewrite String.eqb_refl; simpl.
    rewrite !AppStateMoreFacts.filter_all; [reflexivity | |].
    + intros y Hy; rewrite (Ha y Hy); reflexivity.
    + intros y Hy; rewrite (Hb y Hy); reflexivity.
Qed.

Lemma updating_a_line_recomputes_its_total_witness :
  let a := {| id := "cart_1"; product_id := "prod_001";
              product_name := "Headphones"; quantity := 1;
              unit_price := 1000; total_price := 1000 |} in
  let b := {| id := "cart_2"; product_id := "prod_002";
              product_name := "Case"; quantity := 2;
              unit_price := 300; total_price := 600 |} in
  let s := dispatch_all initialState [ADD_TO_CART a; ADD_TO_CART b] in
  cartItems s = [a] ++ b :: [] /\
  (forall item, In item [a] -> id item <> id b) /\
  (forall item, In item [] -> id item <> id b) /\
  cartTotal (appReducer s (UPDATE_CART_ITEM (id b) 5))
  = line_totals_sum [a] + 5 * unit_price b + line_totals_sum [].
Proof.
  cbv zeta.
  assert (H1 : forall item : CartItem,
             In item [ {| id := "cart_1"; product_id := "prod_001";
                          product_name := "Headphones"; quantity := 1;
                          unit_price := 1000; total_price := 1000 |} ] ->
             id item
             <> id {| id := "cart_2"; product_id := "prod_002";
                      product_name := "Case"; quantity := 2;
                      unit_price := 300; total_price := 600 |}).
  { intros item [Heq | []]; subst item; discriminate. }
  assert (H2 : forall item : CartItem,
             In item [] ->
             id item
             <> id {| id := "cart_2"; product_id := "prod_002";
                      product_name := "Case"; quantity := 2;
                      unit_price := 300; total_price := 600 |})
    by (intros item []).
  split; [reflexivity|]; split; [exact H1|]; split; [exact H2|].
  exact (proj1 (proj2 (updating_a_line_recomputes_its_total
                         (dispatch_all initialState
                            [ADD_TO_CART
                               {| id := "cart_1"; product_id := "prod_001";
                                  product_name := "Headphones"; quantity := 1;
                                  unit_price := 1000; total_price := 1000 |};
                             ADD_TO_CART
                               {| id := "cart_2"; product_id := "prod_002";
                                  product_name := "Case"; quantity := 2;
                                  unit_price := 300; total_price := 600 |}])
                         _ [] _ 5 eq_refl H1 H2))).
Defined.

End CartLineFacts.
